(** * Chisel debugger commands: a shallow embedding of [commands/FBDebugCommands.py]

    The file embeds the five lldb commands of [FBDebugCommands.py]
    ([wivar], [binside], [bmessage], [mwarning], [findinstances]) as Rocq
    functions and proves properties of them.

    - Python strings are [string]; integers are [Z].
    - What the commands do to the outside (printing, debugger commands,
      watchpoints, calls evaluated for their effect in the debuggee) is
      recorded as a trace of [effect]s in a small writer/error monad [M].
    - Everything the commands read from outside the file (the live process
      behind [fb.evaluate...], the helpers of [fblldbobjcruntimehelpers],
      [lldb], [os], Python's [int(_, 0)]) is a field of the record [World].
    - The only loop ([bmessage]'s hierarchy ascent) takes a fuel argument
      that bounds the number of executions of the loop body. *)

From Stdlib Require Import ZArith List Bool Ascii String Lia DecimalString HexString.
From Stdlib Require DecimalZ DecimalPos.
Import ListNotations.

Open Scope string_scope.
Open Scope Z_scope.

(* ================================================================== *)
(** * Characters and strings as Python sees them *)

(** The double quote, the backslash and the newline. *)
Definition dquote : ascii := "034"%char.
Definition backslash : ascii := "092"%char.
Definition newline : ascii := "010"%char.

Definition DQ : string := String dquote EmptyString.
Definition BS : string := String backslash EmptyString.

(** [string.whitespace] of Python 2: space, [\t], [\n], [\v], [\f], [\r].
    It is what [str.strip()] removes and what [\s] matches (no flags). *)
Definition is_space (c : ascii) : bool :=
  let n := nat_of_ascii c in
  (Nat.eqb n 32 || Nat.eqb n 9 || Nat.eqb n 10 || Nat.eqb n 11
   || Nat.eqb n 12 || Nat.eqb n 13)%bool.

(** The regular expression [.] (no DOTALL): any character but newline. *)
Definition is_dot (c : ascii) : bool := negb (Ascii.eqb c newline).

(** The character class [[-+]]. *)
Definition is_plus_minus (c : ascii) : bool :=
  (Ascii.eqb c "-" || Ascii.eqb c "+")%bool.

(** The characters of the text of an integer: a sign or a digit. *)
Definition is_sign_or_digit (c : ascii) : bool :=
  (Ascii.eqb c "-" || (Nat.leb 48 (nat_of_ascii c) && Nat.leb (nat_of_ascii c) 57))%bool.

Fixpoint forall_chars (p : ascii -> bool) (s : string) : bool :=
  match s with
  | EmptyString => true
  | String c s' => (p c && forall_chars p s')%bool
  end.

Definition head_is (p : ascii -> bool) (s : string) : bool :=
  match s with
  | EmptyString => false
  | String c _ => p c
  end.

Fixpoint str_take (n : nat) (s : string) : string :=
  match n, s with
  | S n', String c s' => String c (str_take n' s')
  | _, _ => EmptyString
  end.

(** The text between two positions of a match: [s'] is the remainder of
    [s] after the match consumed a prefix of it. *)
Definition consumed (s s' : string) : string :=
  str_take (String.length s - String.length s') s.

(** [s1 in s2] for Python strings. *)
Fixpoint contains (needle s : string) : bool :=
  (String.prefix needle s
   || match s with
      | EmptyString => false
      | String _ s' => contains needle s'
      end)%bool.

(* ------------------------------------------------------------------ *)
(** ** Python values of unknown type

    Some values come straight from [lldb] or from helper modules and the
    source compares them with integer literals ([errno == 50],
    [thisMethod == 0]).  They are kept as tagged Python values, with
    Python 2's [==], under which a [str] never equals an [int]. *)

Inductive pyval : Type :=
| PyInt (n : Z)
| PyStr (s : string)
| PyNone.

Definition py_eq (a b : pyval) : bool :=
  match a, b with
  | PyInt x, PyInt y => Z.eqb x y
  | PyStr x, PyStr y => String.eqb x y
  | PyNone, PyNone => true
  | _, _ => false
  end.

(** ['{}'.format(n)] for an integer. *)
Definition format_Z (n : Z) : string := NilZero.string_of_int (Z.to_int n).

(** ['{}'.format(v)]. *)
Definition format_pyval (v : pyval) : string :=
  match v with
  | PyInt n => format_Z n
  | PyStr s => s
  | PyNone => "None"
  end.

(** ['{}'.format(x)] where [x] is a string or [None]. *)
Definition format_opt (x : option string) : string :=
  match x with
  | Some s => s
  | None => "None"
  end.

(** Truth value of a string-or-[None]: [None] and [''] are false. *)
Definition truthy (x : option string) : bool :=
  match x with
  | None => false
  | Some EmptyString => false
  | Some _ => true
  end.

(** [str.strip()]. *)
Fixpoint lstrip (s : string) : string :=
  match s with
  | String c s' => if is_space c then lstrip s' else s
  | EmptyString => EmptyString
  end.

Fixpoint rstrip (s : string) : string :=
  match s with
  | EmptyString => EmptyString
  | String c s' =>
      match rstrip s' with
      | EmptyString => if is_space c then EmptyString else String c EmptyString
      | r => String c r
      end
  end.

Definition strip (s : string) : string := rstrip (lstrip s).

(** [s.split(' ', 1)]: at most one split, at the first space. *)
Fixpoint split_space_1 (s : string) : string * option string :=
  match s with
  | EmptyString => (EmptyString, None)
  | String c s' =>
      if Ascii.eqb c " " then (EmptyString, Some s')
      else let '(a, b) := split_space_1 s' in (String c a, b)
  end.

(* ------------------------------------------------------------------ *)
(** ** [posixpath.dirname] and [posixpath.join] *)

Definition is_slash (c : ascii) : bool := Ascii.eqb c "/".

(** [p[:p.rfind('/') + 1]]: the prefix up to and including the last
    slash, empty when there is none. *)
Fixpoint upto_last_slash (p : string) : string :=
  match p with
  | EmptyString => EmptyString
  | String c p' =>
      if contains "/" p' then String c (upto_last_slash p')
      else if is_slash c then String c EmptyString
      else EmptyString
  end.

(** [head.rstrip('/')]. *)
Fixpoint rstrip_slash (s : string) : string :=
  match s with
  | EmptyString => EmptyString
  | String c s' =>
      match rstrip_slash s' with
      | EmptyString => if is_slash c then EmptyString else String c EmptyString
      | r => String c r
      end
  end.

Definition os_path_dirname (p : string) : string :=
  let head := upto_last_slash p in
  if (negb (String.eqb head EmptyString) && negb (forall_chars is_slash head))%bool
  then rstrip_slash head
  else head.

Fixpoint ends_with_slash (s : string) : bool :=
  match s with
  | EmptyString => false
  | String c EmptyString => is_slash c
  | String _ s' => ends_with_slash s'
  end.

Definition join_step (path b : string) : string :=
  if head_is is_slash b then b
  else if (String.eqb path EmptyString || ends_with_slash path)%bool then path ++ b
  else path ++ "/" ++ b.

Definition os_path_join (a : string) (p : list string) : string :=
  fold_left join_step p a.

(* ================================================================== *)
(** * A backtracking matcher for the fragment of [re] the file uses

    The matcher is written in continuation-passing style so that the
    order in which alternatives are tried is the one of Python's engine:
    a greedy repetition tries the longest repetition first, a lazy one
    the shortest, an optional item is tried present before absent.
    Repetitions only occur over single-character classes in the source,
    which is what [Rep] offers. *)

Inductive quant : Type := Greedy | Lazy.

Inductive regex : Type :=
| Lit (c : ascii)                                   (* an escaped literal, e.g. [\[] *)
| Cls (p : ascii -> bool)                           (* a character class *)
| Rep (p : ascii -> bool) (plus : bool) (q : quant) (* [p*], [p+], [p*?], [p+?] *)
| Cat (r1 r2 : regex)
| Opt (r : regex)                                   (* [r?] *)
| Grp (name : string) (r : regex).                  (* [(?P<name>r)] *)

(** Named groups that took part in the match, most recent first. *)
Definition groups : Type := list (string * string).

Definition set_group (name val : string) (g : groups) : groups :=
  (name, val) :: g.

(** [match.group(name)]: [None] when the group did not take part. *)
Fixpoint group (g : groups) (name : string) : option string :=
  match g with
  | [] => None
  | (n, v) :: g' => if String.eqb n name then Some v else group g' name
  end.

Definition cont : Type := string -> groups -> option groups.

Fixpoint rep_greedy (p : ascii -> bool) (s : string) (g : groups) (k : cont)
  : option groups :=
  match s with
  | String c s' =>
      if p c then
        match rep_greedy p s' g k with
        | Some r => Some r
        | None => k s g
        end
      else k s g
  | EmptyString => k s g
  end.

Fixpoint rep_lazy (p : ascii -> bool) (s : string) (g : groups) (k : cont)
  : option groups :=
  match k s g with
  | Some r => Some r
  | None =>
      match s with
      | String c s' => if p c then rep_lazy p s' g k else None
      | EmptyString => None
      end
  end.

Definition rep (p : ascii -> bool) (q : quant) : string -> groups -> cont -> option groups :=
  match q with
  | Greedy => rep_greedy p
  | Lazy => rep_lazy p
  end.

Fixpoint re_run (r : regex) (s : string) (g : groups) (k : cont) : option groups :=
  match r with
  | Lit c =>
      match s with
      | String c' s' => if Ascii.eqb c c' then k s' g else None
      | EmptyString => None
      end
  | Cls p =>
      match s with
      | String c' s' => if p c' then k s' g else None
      | EmptyString => None
      end
  | Rep p false q => rep p q s g k
  | Rep p true q =>
      match s with
      | String c' s' => if p c' then rep p q s' g k else None
      | EmptyString => None
      end
  | Cat r1 r2 => re_run r1 s g (fun s' g' => re_run r2 s' g' k)
  | Opt r' =>
      match re_run r' s g k with
      | Some res => Some res
      | None => k s g
      end
  | Grp name r' =>
      re_run r' s g (fun s' g' => k s' (set_group name (consumed s s') g'))
  end.

(** [pattern.match(s)]: anchored at the start of [s], not at its end. *)
Definition re_match (r : regex) (s : string) : option groups :=
  re_run r s [] (fun _ g => Some g).

(* ================================================================== *)
(** * [bmessage]: the method pattern (lines 89-113) *)

(** [methodPattern], compiled with [re.VERBOSE] (the white space of the
    pattern text is not part of the pattern).  In order:
    an optional group [scope] over the class of minus and plus; a literal
    opening bracket; the group [target], a lazy star over dot; an optional
    group [category], which is a literal opening parenthesis, a greedy plus
    over dot and a literal closing parenthesis; a greedy plus over white
    space; the group [selector], a greedy star over dot; a literal closing
    bracket. *)
Definition selector_tail : regex :=
  Cat (Grp "selector" (Rep is_dot false Greedy)) (Lit "]").

Definition space_tail : regex :=
  Cat (Rep is_space true Greedy) selector_tail.

Definition category_item : regex :=
  Opt (Grp "category" (Cat (Lit "(") (Cat (Rep is_dot true Greedy) (Lit ")")))).

Definition category_tail : regex := Cat category_item space_tail.

Definition target_tail : regex :=
  Cat (Grp "target" (Rep is_dot false Lazy)) category_tail.

Definition methodPattern : regex :=
  Cat (Opt (Grp "scope" (Cls is_plus_minus))) (Cat (Lit "[") target_tail).

(** The four groups read at lines 110-113. *)
Record MethodMatch : Type := mkMethodMatch {
  mm_scope : option string;
  mm_target : option string;
  mm_category : option string;
  mm_selector : option string
}.

Definition method_groups (g : groups) : MethodMatch :=
  {| mm_scope := group g "scope";
     mm_target := group g "target";
     mm_category := group g "category";
     mm_selector := group g "selector" |}.

Definition parse_method (expression : string) : option MethodMatch :=
  option_map method_groups (re_match methodPattern expression).

(* ================================================================== *)
(** * Effects, exceptions and the command monad *)

(** What a command does to the outside, in program order. *)
Inductive effect : Type :=
| Print (line : string)                             (* [print line] *)
| HandleCommand (cmd : string)                      (* [lldb.debugger.HandleCommand(cmd)] *)
| WatchAddress (addr size : Z) (read write : bool)  (* [target.WatchAddress(...)] *)
| Evaluate (expr : string).                         (* an expression run for its effect *)

Inductive exn : Type := IndexError | ValueError | TypeError | NameError.

Inductive result (A : Type) : Type :=
| Ok (a : A)
| Raised (e : exn)
| OutOfFuel.

Arguments Ok {A} a.
Arguments Raised {A} e.
Arguments OutOfFuel {A}.

Definition M (A : Type) : Type := (list effect * result A)%type.

Definition ret {A : Type} (a : A) : M A := ([], Ok a).

Definition bind {A B : Type} (m : M A) (f : A -> M B) : M B :=
  match m with
  | (t, Ok a) => let '(t', r) := f a in ((t ++ t')%list, r)
  | (t, Raised e) => (t, Raised e)
  | (t, OutOfFuel) => (t, OutOfFuel)
  end.

Definition emit (e : effect) : M unit := ([e], Ok tt).
Definition raise {A : Type} (e : exn) : M A := ([], Raised e).
Definition lift {A : Type} (r : result A) : M A := ([], r).
Definition print (line : string) : M unit := emit (Print line).

Declare Scope cmd_scope.
Delimit Scope cmd_scope with cmd.
Notation "x <- m ;; k" := (bind m (fun x => k))
  (at level 61, m at next level, right associativity) : cmd_scope.
Notation "m ;;; k" := (bind m (fun _ => k))
  (at level 61, right associativity) : cmd_scope.
Open Scope cmd_scope.

Definition trace {A : Type} (m : M A) : list effect := fst m.
Definition outcome {A : Type} (m : M A) : result A := snd m.

Definition is_directive (e : effect) : bool :=
  match e with
  | HandleCommand _ => true
  | WatchAddress _ _ _ _ => true
  | _ => false
  end.

(** The debugger directives (breakpoints, watchpoints) of a trace. *)
Definition directives (t : list effect) : list effect := filter is_directive t.

(* ================================================================== *)
(** * The world outside the file *)

(** The fields of an [lldb.SBValue] the file reads. *)
Record SBValue : Type := mkSBValue {
  sb_unsigned : Z;
  sb_value : pyval;
  sb_summary : string
}.

(** Every answer the commands obtain from outside [FBDebugCommands.py].
    The process is stopped while a command runs, so each question has one
    answer; the one thing that changes under the file's feet, whether the
    [Chisel] module is loaded, is asked before and after the [dlopen]. *)
Record World : Type := mkWorld {
  (* Python: [int(s, 0)], [None] for a [ValueError] *)
  int0 : string -> option Z;
  (* fblldbbase *)
  evaluateObjectExpression : string -> option string;
  evaluateExpression : string -> option string;
  evaluateExpressionValue : string -> SBValue;
  (* fblldbobjcruntimehelpers *)
  functionPreambleExpressionForSelf : option string;
  object_getClass : string -> string;
  class_getSuperclass : string -> string;
  class_getName : string -> string;
  class_getInstanceMethod : string -> string -> pyval;
  (* lldb *)
  ResolveFileAddress : Z -> Z;
  watch_result : Z -> Z -> bool * Z * string;  (* success, watchpoint id, error text *)
  module_Chisel : bool;                 (* [target.module['Chisel']] on entry *)
  module_Chisel_after_dlopen : bool;    (* the same, after the [dlopen] call *)
  (* os, sys *)
  os_getenv : string -> option string;
  os_path_exists : string -> bool;
  module_file : string                  (* [sys.modules[__name__].__file__] *)
}.

(** [int(x, 0)] where [x] is a string or [None]. *)
Definition py_int0 (w : World) (x : option string) : M Z :=
  match x with
  | None => raise TypeError
  | Some s =>
      match int0 w s with
      | Some n => ret n
      | None => raise ValueError
      end
  end.

(* ================================================================== *)
(** * [wivar] (lines 33-54) *)

Definition ivarOffsetCommand (objectAddress : Z) (ivarName : string) : string :=
  "(ptrdiff_t)ivar_getOffset((void*)object_getInstanceVariable((id)"
  ++ format_Z objectAddress ++ ", " ++ DQ ++ ivarName ++ DQ ++ ", 0))".

Definition ivarSizeCommand (objectAddress : Z) (ivarName : string) : string :=
  "unsigned int size = 0;"
  ++ "char *typeEncoding = (char *)ivar_getTypeEncoding((void*)class_getInstanceVariable((Class)object_getClass((id)"
  ++ format_Z objectAddress ++ "), " ++ DQ ++ ivarName ++ DQ ++ "));"
  ++ "(char *)NSGetSizeAndAlignment(typeEncoding, &size, 0);"
  ++ "size".

Definition wivar_run (w : World) (arguments : list string) : M unit :=
  match arguments with
  | [commandForObject; ivarName] =>
      objectAddress <- py_int0 w (evaluateObjectExpression w commandForObject) ;;
      ivarOffset <- py_int0 w (evaluateExpression w (ivarOffsetCommand objectAddress ivarName)) ;;
      ivarSize <- py_int0 w (evaluateExpression w (ivarSizeCommand objectAddress ivarName)) ;;
      emit (WatchAddress (objectAddress + ivarOffset) ivarSize false true) ;;;
      let '(success, id, cstring) := watch_result w (objectAddress + ivarOffset) ivarSize in
      if success
      then print ("Remember to delete the watchpoint using: watchpoint delete " ++ format_Z id)
      else print ("Could not create the watchpoint: " ++ cstring)
  | _ => raise ValueError
  end.

(* ================================================================== *)
(** * [binside] (lines 68-72) *)

Definition binside_run (w : World) (arguments : list string) : M unit :=
  match arguments with
  | a0 :: _ =>
      library_address <- py_int0 w (Some a0) ;;
      let address := ResolveFileAddress w library_address in
      emit (HandleCommand ("breakpoint set --address " ++ format_Z address))
  | [] => raise IndexError
  end.

(* ================================================================== *)
(** * [bmessage] (lines 86-179) *)

(** Lines 169-179. *)
Definition classItselfImplementsSelector (w : World) (klass selector : string) : bool :=
  let thisMethod := class_getInstanceMethod w klass selector in
  if py_eq thisMethod (PyInt 0) then false
  else
    let superklass := class_getSuperclass w klass in
    let superMethod := class_getInstanceMethod w superklass selector in
    if py_eq thisMethod superMethod then false else true.

(** Lines 142-146, the loop [while not found and int(nextClass, 0) > 0].
    One unit of fuel is spent per execution of the loop body, none by the
    test: [ascend n] differs from [OutOfFuel] exactly when the loop leaves
    after at most [n] iterations. *)
Fixpoint ascend (fuel : nat) (w : World) (selector : string)
    (found : bool) (nextClass : string) : result (bool * string) :=
  if found then Ok (found, nextClass)
  else
    match int0 w nextClass with
    | None => Raised ValueError
    | Some n =>
        if 0 <? n then
          match fuel with
          | O => OutOfFuel
          | S fuel' =>
              if classItselfImplementsSelector w nextClass selector
              then ascend fuel' w selector true nextClass
              else ascend fuel' w selector false (class_getSuperclass w nextClass)
          end
        else Ok (found, nextClass)
    end.

Definition breakpointFullName (methodTypeCharacter breakpointClassName formattedCategory selector : string) : string :=
  methodTypeCharacter ++ "[" ++ breakpointClassName ++ formattedCategory ++ " " ++ selector ++ "]".

Definition breakpointPattern (methodTypeCharacter breakpointClassName selector : string) : string :=
  methodTypeCharacter ++ "\[" ++ breakpointClassName ++ "(\(.+\))? " ++ selector ++ "\]".

Definition classCondition (expressionForSelf targetClass : string) : string :=
  "(void*)object_getClass(" ++ expressionForSelf ++ ") == " ++ targetClass.

Definition instanceCondition (expressionForSelf targetObject : string) : string :=
  "(void*)" ++ expressionForSelf ++ " == " ++ targetObject.

Definition fullnameCommand (name condition : string) : string :=
  "breakpoint set --skip-prologue false --fullname " ++ DQ ++ name ++ DQ
  ++ " --condition " ++ DQ ++ condition ++ DQ.

Definition funcRegexCommand (pattern condition : string) : string :=
  "breakpoint set --skip-prologue false --func-regex " ++ DQ ++ pattern ++ DQ
  ++ " --condition " ++ DQ ++ condition ++ DQ.

Definition scope_is_plus (scope : option string) : bool :=
  match scope with
  | Some s => String.eqb s "+"
  | None => false
  end.

(** Lines 121-137: from the target text to the class the ascent starts
    at.  Answers [None] after printing when no class is found, else
    [targetIsClass], [targetObject] and [targetClass] as they stand at
    line 138. *)
Definition resolveTarget (w : World) (classNameOrExpression : string)
    (methodIsClassMethod : bool) : M (option (bool * option string * string)) :=
  let targetObject0 := evaluateObjectExpression w ("(" ++ classNameOrExpression ++ ")") in
  let targetIsClass := negb (truthy targetObject0) in
  let targetObject :=
    if targetIsClass
    then evaluateObjectExpression w ("[" ++ classNameOrExpression ++ " class]")
    else targetObject0 in
  let targetClass0 := evaluateObjectExpression w ("[" ++ format_opt targetObject ++ " class]") in
  let notFound :=
    print ("Couldn't find a class from the expression " ++ DQ ++ classNameOrExpression
           ++ DQ ++ ". Did you typo?") ;;; ret None in
  if negb (truthy targetClass0) then notFound
  else
    n <- py_int0 w targetClass0 ;;
    if n =? 0 then notFound
    else
      let targetClass :=
        if methodIsClassMethod
        then object_getClass w (format_opt targetClass0)
        else format_opt targetClass0 in
      ret (Some (targetIsClass, targetObject, targetClass)).

Definition noImplementation (selector : string) : string :=
  "There doesn't seem to be an implementation of " ++ selector
  ++ " in the class hierarchy. Made a boo boo with the selector name?".

(** Lines 152-159: the guard of the breakpoint. *)
Definition breakpointCondition (targetIsClass : bool) (expressionForSelf : string)
    (targetObject : option string) (targetClass : string) : string :=
  if targetIsClass
  then classCondition expressionForSelf targetClass
  else instanceCondition expressionForSelf (format_opt targetObject).

(** Lines 163-167: the command handed to the debugger. *)
Definition breakpointCommand (category : option string)
    (fullName pattern condition : string) : string :=
  if truthy category
  then fullnameCommand fullName condition
  else funcRegexCommand pattern condition.

(** Lines 86-167.  The groups [target] and [selector] are only ever
    formatted into other strings, so they are read through [format_opt]. *)
Definition bmessage_run (fuel : nat) (w : World) (arguments : list string) : M unit :=
  match arguments with
  | [] => raise IndexError
  | expression :: _ =>
  match re_match methodPattern expression with
  | None => print "Failed to parse expression. Do you even Objective-C?!"
  | Some g =>
  let expressionForSelf := functionPreambleExpressionForSelf w in
  if negb (truthy expressionForSelf) then raise NameError  (* [arch] is not defined *)
  else
  let classNameOrExpression := format_opt (group g "target") in
  let category := group g "category" in
  let selector := format_opt (group g "selector") in
  let methodIsClassMethod := scope_is_plus (group g "scope") in
  let methodTypeCharacter := if methodIsClassMethod then "+" else "-" in
  resolved <- resolveTarget w classNameOrExpression methodIsClassMethod ;;
  match resolved with
  | None => ret tt
  | Some (targetIsClass, targetObject, targetClass) =>
  r <- lift (ascend fuel w selector false targetClass) ;;
  let '(found, nextClass) := r in
  if negb found then print (noImplementation selector)
  else
  let breakpointClassName := class_getName w nextClass in
  let formattedCategory := if truthy category then format_opt category else "" in
  let fullName := breakpointFullName methodTypeCharacter breakpointClassName formattedCategory selector in
  let condition :=
    breakpointCondition targetIsClass (format_opt expressionForSelf) targetObject targetClass in
  print ("Setting a breakpoint at " ++ fullName ++ " with condition " ++ condition) ;;;
  emit (HandleCommand
          (breakpointCommand category fullName
             (breakpointPattern methodTypeCharacter breakpointClassName selector)
             condition))
  end
  end
  end.

(* ================================================================== *)
(** * [mwarning] (lines 188-189) *)

Definition mwarning_run : M unit :=
  emit (Evaluate "[[UIApplication sharedApplication] performSelector:@selector(_performMemoryWarning)]").

(* ================================================================== *)
(** * [findinstances] (lines 230-294) *)

(** Lines 285-294. *)
Definition defaultLibraryPath (w : World) : string :=
  let source_path := module_file w in
  let source_dir := os_path_dirname source_path in
  os_path_join source_dir [".."; ".."; "lib"; "Chisel.framework"; "Chisel"].

Definition chiselLibraryPath (w : World) : string :=
  let path := os_getenv w "CHISEL_LIBRARY_PATH" in
  if (truthy path && os_path_exists w (format_opt path))%bool
  then format_opt path
  else defaultLibraryPath w.

Definition dlopenCall (path : string) : string :=
  "(void*)dlopen(" ++ DQ ++ path ++ DQ ++ ", 2)".

Definition strerrorCall (errno : pyval) : string :=
  "(char*)strerror(" ++ format_pyval errno ++ ")".

(** Lines 264-281: the message printed once the load has failed. *)
Definition loadFailureMessage (w : World) : string :=
  let errno := sb_value (evaluateExpressionValue w "*(int*)__error()") in
  let error := evaluateExpressionValue w "(char*)dlerror()" in
  if py_eq errno (PyInt 50) then
    "Error loading Chisel: Code signing failure; Must re-run codesign"
  else if negb (sb_unsigned error =? 0) then
    "Error loading Chisel: " ++ sb_summary error
  else if negb (py_eq errno (PyInt 0)) then
    let error := evaluateExpressionValue w (strerrorCall errno) in
    if negb (sb_unsigned error =? 0) then
      "Error loading Chisel: " ++ sb_summary error
    else
      "Error loading Chisel (errno " ++ format_pyval errno ++ ")"
  else
    "Unknown error loading Chisel".

(** Lines 251-283. *)
Definition loadChiselIfNecessary (w : World) : M bool :=
  if module_Chisel w then ret true
  else
    let path := chiselLibraryPath w in
    if negb (os_path_exists w path) then
      print ("Chisel library missing: " ++ path) ;;; ret false
    else
      emit (Evaluate (dlopenCall path)) ;;;
      let module := evaluateExpressionValue w (dlopenCall path) in
      if (negb (sb_unsigned module =? 0) || module_Chisel_after_dlopen w)%bool
      then ret true
      else print (loadFailureMessage w) ;;; ret false.

(** Line 245, the [re.sub] call that escapes the predicate.  Its pattern
    literal is not a raw string, so the pattern text is: an opening
    parenthesis, an opening square bracket, ONE backslash, a double quote,
    a closing square bracket, a closing parenthesis.  Inside a character
    class a backslash escapes the character after it, so the class holds
    the double quote alone.  The replacement template (a raw string) is a
    backslash followed by group 1. *)
Definition escape_class (c : ascii) : bool := Ascii.eqb c dquote.

Fixpoint re_sub_escape (cls : ascii -> bool) (s : string) : string :=
  match s with
  | EmptyString => EmptyString
  | String c s' =>
      if cls c then String backslash (String c (re_sub_escape cls s'))
      else String c (re_sub_escape cls s')
  end.

Definition escape_predicate (predicate : string) : string :=
  re_sub_escape escape_class predicate.

Definition printInstancesCall (query predicate : string) : string :=
  "(void)PrintInstances(" ++ DQ ++ query ++ DQ ++ ", " ++ DQ ++ predicate ++ DQ ++ ")".

(** Lines 230-249. *)
Definition findinstances_run (w : World) (arguments : list string) : M unit :=
  loaded <- loadChiselIfNecessary w ;;
  if negb loaded then ret tt
  else
    match arguments with
    | [] =>
        print "Usage: findinstances <classOrProtocol> [<predicate>]; Run `help findinstances`"
    | a0 :: _ =>
        if String.eqb (strip a0) "" then
          print "Usage: findinstances <classOrProtocol> [<predicate>]; Run `help findinstances`"
        else
          let '(query, rest) := split_space_1 (strip a0) in
          let predicate :=
            match rest with
            | Some p => escape_predicate (strip p)
            | None => ""
            end in
          emit (Evaluate (printInstancesCall query predicate))
    end.

(* ================================================================== *)
(** * Notions used to state the properties *)

(** The [n]-th superclass of [k], as the live runtime answers. *)
Fixpoint nth_superclass (w : World) (n : nat) (k : string) : string :=
  match n with
  | O => k
  | S n' => nth_superclass w n' (class_getSuperclass w k)
  end.

(** A handle that [int(_, 0)] reads as a positive number. *)
Definition live_handle (w : World) (k : string) : Prop :=
  exists n, int0 w k = Some n /\ 0 < n.

(** A handle that [int(_, 0)] reads as zero or less: the end of a chain. *)
Definition null_handle (w : World) (k : string) : Prop :=
  exists n, int0 w k = Some n /\ n <= 0.

(** [klass] has no implementation of its own for [selector]: the runtime's
    method lookup at [klass] answers what it answers at the superclass. *)
Definition inherits (w : World) (klass selector : string) : Prop :=
  class_getInstanceMethod w klass selector
  = class_getInstanceMethod w (class_getSuperclass w klass) selector.

(** A null method pointer, as line 171 tests it. *)
Definition null_method (v : pyval) : bool := py_eq v (PyInt 0).

(** The text of a method reference: scope marker, bracket, target,
    category, white space, selector, bracket. *)
Inductive scope_marker : Type := NoMarker | Minus | Plus.

Definition scope_text (m : scope_marker) : string :=
  match m with
  | NoMarker => ""
  | Minus => "-"
  | Plus => "+"
  end.

Definition scope_group (m : scope_marker) : option string :=
  match m with
  | NoMarker => None
  | Minus => Some "-"
  | Plus => Some "+"
  end.

Definition category_text (category : option string) : string :=
  match category with
  | Some c => "(" ++ c ++ ")"
  | None => ""
  end.

Definition method_reference (m : scope_marker) (target : string)
    (category : option string) (ws selector : string) : string :=
  scope_text m ++ "[" ++ target ++ category_text category ++ ws ++ selector ++ "]".

(** The groups after a category took part, or did not, in the match. *)
Definition with_category (category : option string) (g : groups) : groups :=
  match category with
  | Some c => set_group "category" ("(" ++ c ++ ")") g
  | None => g
  end.

Definition is_open_paren (c : ascii) : bool := Ascii.eqb c "(".
Definition is_close_paren (c : ascii) : bool := Ascii.eqb c ")".

(** A target the lazy [target] group reads whole: no white space in it
    and no opening parenthesis. *)
Definition plain_target (t : string) : bool :=
  forall_chars (fun c => negb (is_space c) && negb (is_open_paren c))%bool t.

(** A category name the [category] group reads whole: not empty, no
    newline. *)
Definition plain_category (category : option string) : bool :=
  match category with
  | None => true
  | Some c => (negb (String.eqb c "") && forall_chars is_dot c)%bool
  end.

(** A selector the [selector] group reads whole: it does not begin with
    white space and holds no newline and no closing parenthesis. *)
Definition plain_selector (s : string) : bool :=
  (negb (head_is is_space s)
   && forall_chars (fun c => is_dot c && negb (is_close_paren c))%bool s)%bool.

Definition white_space (ws : string) : bool :=
  (negb (String.eqb ws "") && forall_chars is_space ws)%bool.

(* ------------------------------------------------------------------ *)
(** ** The receiving side of [findinstances]

    The call text is parsed by the expression evaluator, whose
    string-literal reader removes one level of escaping: backslash
    backslash reads as a backslash, backslash quote as a quote, a bare
    quote ends the literal.  Other escapes never come out of
    [escape_predicate] applied to text without backslashes; they are left
    unread ([None]). *)
Fixpoint unescape (s : string) : option string :=
  match s with
  | EmptyString => Some EmptyString
  | String c s' =>
      if Ascii.eqb c backslash then
        match s' with
        | String d s'' =>
            if (Ascii.eqb d backslash || Ascii.eqb d dquote)%bool
            then option_map (String d) (unescape s'')
            else None
        | EmptyString => None
        end
      else if Ascii.eqb c dquote then None
      else option_map (String c) (unescape s')
  end.

(* ================================================================== *)
(** * Simulated worlds

    Small concrete worlds on which the commands run by computation. *)

Fixpoint assoc {V : Type} (l : list (string * V)) (k : string) : option V :=
  match l with
  | [] => None
  | (k', v) :: l' => if String.eqb k' k then Some v else assoc l' k
  end.

(** The digits of [s] in the given base, most significant first. *)
Fixpoint read_digits (base : N) (s : string) (acc : N) : option N :=
  match s with
  | EmptyString => Some acc
  | String c s' =>
      match HexString.ascii_to_digit c with
      | Some d => if N.ltb d base then read_digits base s' (acc * base + d)%N else None
      | None => None
      end
  end.

Definition read_nonempty_digits (base : N) (s : string) : option N :=
  match s with
  | EmptyString => None
  | _ => read_digits base s 0
  end.

(** An unsigned literal in base 0, as Python 2 reads it: [0x], [0o], [0b]
    in either case followed by digits of that base, a leading zero for
    octal, decimal otherwise. *)
Definition read_literal0 (s : string) : option N :=
  match s with
  | EmptyString => None
  | String "0" EmptyString => Some 0%N
  | String "0" (String c rest) =>
      if (Ascii.eqb c "x" || Ascii.eqb c "X")%bool then read_nonempty_digits 16 rest
      else if (Ascii.eqb c "o" || Ascii.eqb c "O")%bool then read_nonempty_digits 8 rest
      else if (Ascii.eqb c "b" || Ascii.eqb c "B")%bool then read_nonempty_digits 2 rest
      else read_digits 8 (String c rest) 0
  | _ => read_digits 10 s 0
  end.

(** [int(s, 0)] of Python 2 in the simulated worlds: blanks around the
    text are dropped, a sign may stand in front, the rest is a literal in
    base 0; [None] stands for a [ValueError]. *)
Definition sim_int0 (s : string) : option Z :=
  match strip s with
  | String "-" r => option_map (fun n => - Z.of_N n) (read_literal0 (lstrip r))
  | String "+" r => option_map Z.of_N (read_literal0 (lstrip r))
  | r => option_map Z.of_N (read_literal0 r)
  end.

(** A class of the simulated runtime: its handle, name, superclass
    handle, metaclass handle and the methods it implements itself. *)
Record SimClass : Type := mkSimClass {
  sc_handle : string;
  sc_name : string;
  sc_super : string;
  sc_isa : string;
  sc_methods : list (string * Z)
}.

Fixpoint sim_find (rt : list SimClass) (h : string) : option SimClass :=
  match rt with
  | [] => None
  | c :: rt' => if String.eqb (sc_handle c) h then Some c else sim_find rt' h
  end.

(** [class_getInstanceMethod] of the runtime: the class's own method, else
    the superclass's; null when the chain ends. *)
Fixpoint sim_lookup (fuel : nat) (rt : list SimClass) (h sel : string) : Z :=
  match fuel with
  | O => 0
  | S fuel' =>
      match sim_find rt h with
      | None => 0
      | Some c =>
          match assoc (sc_methods c) sel with
          | Some m => m
          | None => sim_lookup fuel' rt (sc_super c) sel
          end
      end
  end.

Definition sim_field (rt : list SimClass) (f : SimClass -> string) (h : string) : string :=
  match sim_find rt h with
  | Some c => f c
  | None => "0x0"
  end.

Record SimLoad : Type := mkSimLoad {
  sl_env : option string;
  sl_exists : string -> bool;
  sl_file : string;
  sl_loaded : bool;
  sl_dlopen : Z;
  sl_loaded_after : bool;
  sl_errno : pyval;
  sl_dlerror : SBValue;
  sl_strerror : SBValue
}.

Definition sim_value (l : SimLoad) (expr : string) : SBValue :=
  if String.eqb expr "*(int*)__error()" then mkSBValue 0 (sl_errno l) ""
  else if String.eqb expr "(char*)dlerror()" then sl_dlerror l
  else if String.prefix "(char*)strerror(" expr then sl_strerror l
  else if String.prefix "(void*)dlopen(" expr then mkSBValue (sl_dlopen l) PyNone ""
  else mkSBValue 0 PyNone "".

Definition sim_world (rt : list SimClass) (objects exprs : list (string * string))
    (self : option string) (l : SimLoad) : World :=
  {| int0 := sim_int0;
     evaluateObjectExpression := assoc objects;
     evaluateExpression := assoc exprs;
     evaluateExpressionValue := sim_value l;
     functionPreambleExpressionForSelf := self;
     object_getClass := sim_field rt sc_isa;
     class_getSuperclass := sim_field rt sc_super;
     class_getName := sim_field rt sc_name;
     class_getInstanceMethod := fun h sel => PyInt (sim_lookup (List.length rt) rt h sel);
     ResolveFileAddress := fun a => 4294967296 + a;
     watch_result := fun _ size =>
       if size =? 0 then (false, 0, "Watchpoint size must be 1, 2, 4 or 8")
       else (true, 1, "");
     module_Chisel := sl_loaded l;
     module_Chisel_after_dlopen := sl_loaded_after l;
     os_getenv := fun name =>
       if String.eqb name "CHISEL_LIBRARY_PATH" then sl_env l else None;
     os_path_exists := sl_exists l;
     module_file := sl_file l |}.

Definition no_load : SimLoad :=
  mkSimLoad None (fun _ => false) "/opt/chisel/libexec/commands/FBDebugCommands.py"
            true 0 true (PyInt 0) (mkSBValue 0 PyNone "") (mkSBValue 0 PyNone "").

(** Three classes [A <- B <- C]; [A] alone implements [doThing:]. *)
Definition abc_runtime : list SimClass :=
  [ mkSimClass "0x1000" "A" "0x0" "0x1100" [("doThing:", 20480)];
    mkSimClass "0x2000" "B" "0x1000" "0x2100" [];
    mkSimClass "0x3000" "C" "0x2000" "0x3100" [("other", 24576)] ].

Definition abc_world : World :=
  sim_world abc_runtime
    [("[C class]", "0x3000"); ("[0x3000 class]", "0x3000");
     ("(0x7000)", "0x7000"); ("[0x7000 class]", "0x3000")]
    [] (Some "(id)$rdi") no_load.

(** [BaseView <- MyView] with their metaclasses; the class method
    [awesomeClassMethod] lives in the metaclass of [BaseView] alone. *)
Definition view_runtime : list SimClass :=
  [ mkSimClass "0x1000" "BaseView" "0x0" "0x1100" [("setFrame:", 20480)];
    mkSimClass "0x1100" "BaseView" "0x0" "0x1100" [("awesomeClassMethod", 20736)];
    mkSimClass "0x2000" "MyView" "0x1000" "0x2100" [];
    mkSimClass "0x2100" "MyView" "0x1100" "0x1100" [] ].

Definition view_world : World :=
  sim_world view_runtime
    [("[MyView class]", "0x2000"); ("[0x2000 class]", "0x2000");
     ("(0x7000)", "0x7000"); ("[0x7000 class]", "0x2000")]
    [] (Some "(id)$rdi") no_load.

(** An object at [0x7000] whose instance variable [_frame] sits at offset
    16 and takes 16 bytes; an unknown name reads as offset 0, size 0. *)
Definition ivar_world : World :=
  sim_world []
    [("self.view", "0x7000")]
    [(ivarOffsetCommand 28672 "_frame", "16"); (ivarSizeCommand 28672 "_frame", "16");
     (ivarOffsetCommand 28672 "_nope", "0"); (ivarSizeCommand 28672 "_nope", "0")]
    (Some "(id)$rdi") no_load.

Definition failed_load (errno : pyval) (dlerror strerror : SBValue) : SimLoad :=
  mkSimLoad None
    (fun p => String.eqb p "/opt/chisel/libexec/commands/../../lib/Chisel.framework/Chisel")
    "/opt/chisel/libexec/commands/FBDebugCommands.py"
    false 0 false errno dlerror strerror.

Definition load_world (l : SimLoad) : World := sim_world [] [] [] None l.

(** A failed load with error number 50 and a loader error at once. *)
Definition codesign_world : World :=
  load_world (failed_load (PyInt 50) (mkSBValue 4660 PyNone "image not found")
                (mkSBValue 0 PyNone "")).

(** The variable names a path that does not exist; nothing exists. *)
Definition override_world : World :=
  load_world (mkSimLoad (Some "/tmp/Chisel") (fun _ => false)
                "/opt/chisel/libexec/commands/FBDebugCommands.py"
                false 0 false (PyInt 0) (mkSBValue 0 PyNone "") (mkSBValue 0 PyNone "")).

(* ------------------------------------------------------------------ *)
(** ** Further notions and simulated worlds *)

(** Some character of [s] satisfies [p]. *)
Definition has_char (p : ascii -> bool) (s : string) : bool :=
  negb (forall_chars (fun c => negb (p c)) s).

(** [s] begins the way the method pattern demands: an opening bracket,
    with or without a sign in front. *)
Definition opens_reference (s : string) : bool :=
  match s with
  | String c rest =>
      (Ascii.eqb c "["
       || (is_plus_minus c && head_is (fun d => Ascii.eqb d "[") rest))%bool
  | EmptyString => false
  end.

(** What every text matched by the method pattern has: the opening, some
    white space and a closing bracket. *)
Definition reference_shape (s : string) : bool :=
  (opens_reference s && has_char is_space s
   && has_char (fun c => Ascii.eqb c "]") s)%bool.

(** Reads back the text of an integer. *)
Definition read_Z (s : string) : option Z :=
  option_map Z.of_int (NilZero.int_of_string s).

(** The text handed to [PrintInstances] as its second argument. *)
Definition scan_predicate (rest : option string) : string :=
  match rest with
  | Some p => escape_predicate (strip p)
  | None => ""
  end.

Definition usage : string :=
  "Usage: findinstances <classOrProtocol> [<predicate>]; Run `help findinstances`".

(** [print line] for some line. *)
Definition is_print (e : effect) : bool :=
  match e with
  | Print _ => true
  | _ => false
  end.

(** [A <- B <- C] where [A] and [C] both implement [draw]. *)
Definition override_runtime : list SimClass :=
  [ mkSimClass "0x1000" "A" "0x0" "0x1100" [("draw", 20480)];
    mkSimClass "0x2000" "B" "0x1000" "0x2100" [];
    mkSimClass "0x3000" "C" "0x2000" "0x3100" [("draw", 24576)] ].

Definition override_hierarchy_world : World :=
  sim_world override_runtime
    [("[C class]", "0x3000"); ("[0x3000 class]", "0x3000");
     ("[B class]", "0x2000"); ("[0x2000 class]", "0x2000")]
    [] (Some "(id)$rdi") no_load.

(** A class that is its own superclass. *)
Definition cyclic_world : World :=
  sim_world [ mkSimClass "0x1000" "Loop" "0x1000" "0x1100" [] ]
    [("[Loop class]", "0x1000"); ("[0x1000 class]", "0x1000")]
    [] (Some "(id)$rdi") no_load.

(** The architecture has no expression for [self]. *)
Definition unsupported_world : World :=
  sim_world abc_runtime [("[C class]", "0x3000"); ("[0x3000 class]", "0x3000")]
    [] None no_load.

(** The library is not loaded, its file is there and [dlopen] succeeds. *)
Definition dlopen_ok : SimLoad :=
  mkSimLoad None
    (fun p => String.eqb p "/opt/chisel/libexec/commands/../../lib/Chisel.framework/Chisel")
    "/opt/chisel/libexec/commands/FBDebugCommands.py"
    false 4660 true (PyInt 0) (mkSBValue 0 PyNone "") (mkSBValue 0 PyNone "").

(** The library is not loaded and its file is nowhere. *)
Definition library_missing : SimLoad :=
  mkSimLoad None (fun _ => false) "/opt/chisel/libexec/commands/FBDebugCommands.py"
    false 0 false (PyInt 0) (mkSBValue 0 PyNone "") (mkSBValue 0 PyNone "").

(** An expression that evaluates to the null object. *)
Definition nil_world : World :=
  sim_world abc_runtime
    [("(nil)", "0x0"); ("[0x0 class]", "0x0")]
    [] (Some "(id)$rdi") no_load.

(** The line printed when no class is found for the target text. *)
Definition couldntFindClass (classNameOrExpression : string) : string :=
  "Couldn't find a class from the expression " ++ DQ ++ classNameOrExpression
  ++ DQ ++ ". Did you typo?".

(** The sign that goes into the breakpoint name: a missing marker counts
    as minus. *)
Definition marker_character (m : scope_marker) : string :=
  match m with
  | Plus => "+"
  | _ => "-"
  end.

Definition marker_is_plus (m : scope_marker) : bool :=
  match m with
  | Plus => true
  | _ => false
  end.

Definition is_backslash (c : ascii) : bool := Ascii.eqb c backslash.

(** The library is there when the command goes on: it was loaded, or its
    file exists and the [dlopen] call brought it in. *)
Definition load_succeeds (w : World) : bool :=
  (module_Chisel w
   || (os_path_exists w (chiselLibraryPath w)
       && (negb (sb_unsigned (evaluateExpressionValue w (dlopenCall (chiselLibraryPath w)))
                 =? 0)
           || module_Chisel_after_dlopen w)))%bool.

(** What a successful load leaves in the trace. *)
Definition load_trace (w : World) : list effect :=
  if module_Chisel w then [] else [Evaluate (dlopenCall (chiselLibraryPath w))].

(** The text [s] put back together from the two parts of its split. *)
Definition rejoin (query : string) (more : option string) : string :=
  match more with
  | Some r => query ++ " " ++ r
  | None => query
  end.

(** The source directory as the default path begins with it: with a
    separator behind it unless it is empty or ends in one. *)
Definition directory_prefix (d : string) : string :=
  if (String.eqb d "" || ends_with_slash d)%bool then d else d ++ "/".

Definition dlopen_world : World := load_world dlopen_ok.

Definition missing_world : World := load_world library_missing.

(** The error number arrives as the text [50]. *)
Definition text_errno_world : World :=
  load_world (failed_load (PyStr "50") (mkSBValue 0 PyNone "")
                (mkSBValue 4660 PyNone "Unknown error: 50")).

(** The variable is set to the empty string and every path exists; the
    source file is named by a relative path. *)
Definition empty_override_world : World :=
  load_world (mkSimLoad (Some "") (fun _ => true) "commands/FBDebugCommands.py"
                false 0 false (PyInt 0) (mkSBValue 0 PyNone "") (mkSBValue 0 PyNone "")).

(** The closing bracket of a match is the last one of its line: no
    bracket stands behind it before the next newline. *)
Definition last_bracket (rest : string) : Prop :=
  forall r1 r2, rest = r1 ++ "]" ++ r2 -> forall_chars is_dot r1 = false.

(* ------------------------------------------------------------------ *)
(** ** Method references that are read whole *)

(** No white space in [t]. *)
Definition no_space (t : string) : bool :=
  forall_chars (fun c => negb (is_space c)) t.

(** The last character of [s] satisfies [p]. *)
Fixpoint ends_with (p : ascii -> bool) (s : string) : bool :=
  match s with
  | EmptyString => false
  | String c EmptyString => p c
  | String _ s' => ends_with p s'
  end.

(** No closing parenthesis of [s] stands right in front of white space:
    nowhere in [s] can a category end. *)
Fixpoint no_paren_gap (s : string) : bool :=
  match s with
  | EmptyString => true
  | String c s' =>
      (negb (is_close_paren c && head_is is_space s') && no_paren_gap s')%bool
  end.

(** Parentheses that do not mislead the category group.  Without a
    category: the target holds no opening parenthesis, or else it does
    not end in a closing one and the selector offers no place for a
    category to end.  With a category: the target holds no opening
    parenthesis and the selector offers no place for a category to end. *)
Definition readable_parens (t : string) (category : option string) (sel : string) : bool :=
  match category with
  | None =>
      (negb (has_char is_open_paren t)
       || (negb (ends_with is_close_paren t) && no_paren_gap sel))%bool
  | Some _ => (negb (has_char is_open_paren t) && no_paren_gap sel)%bool
  end.

(* ================================================================== *)
(** * Strings: basic facts *)

Lemma append_nil_r (s : string) : s ++ "" = s.
Proof. induction s as [|c s IH]; simpl; [reflexivity | now rewrite IH]. Qed.

Lemma append_assoc (a b c : string) : (a ++ b) ++ c = a ++ (b ++ c).
Proof. induction a as [|x a IH]; simpl; [reflexivity | now rewrite IH]. Qed.

Lemma length_append (u v : string) :
  String.length (u ++ v) = (String.length u + String.length v)%nat.
Proof. induction u as [|c u IH]; simpl; [reflexivity | now rewrite IH]. Qed.

Lemma str_take_append (u v : string) : str_take (String.length u) (u ++ v) = u.
Proof. induction u as [|c u IH]; simpl; [now destruct v | now rewrite IH]. Qed.

Lemma consumed_append (u v : string) : consumed (u ++ v) v = u.
Proof.
  unfold consumed. rewrite length_append.
  replace (String.length u + String.length v - String.length v)%nat
    with (String.length u) by lia.
  apply str_take_append.
Qed.

Lemma forall_chars_append (p : ascii -> bool) (u v : string) :
  forall_chars p (u ++ v) = (forall_chars p u && forall_chars p v)%bool.
Proof.
  induction u as [|c u IH]; simpl; [reflexivity|].
  now rewrite IH, andb_assoc.
Qed.

Lemma forall_chars_impl (p q : ascii -> bool) (s : string) :
  (forall c, p c = true -> q c = true) ->
  forall_chars p s = true -> forall_chars q s = true.
Proof.
  intros Hpq. induction s as [|c s IH]; simpl; [reflexivity|].
  intros H. apply andb_prop in H as [Hc Hs].
  now rewrite (Hpq c Hc), (IH Hs).
Qed.

(* ================================================================== *)
(** * The matcher: how repetitions backtrack *)

Arguments consumed : simpl never.
Arguments Ascii.eqb : simpl nomatch.
Arguments is_space : simpl never.
Arguments is_dot : simpl never.

(** A greedy repetition runs over a prefix of matching characters when
    the rest of the match succeeds from behind that prefix. *)
Lemma rep_greedy_skip (p : ascii -> bool) (u v : string) (g : groups) (k : cont) r :
  forall_chars p u = true ->
  rep_greedy p v g k = Some r ->
  rep_greedy p (u ++ v) g k = Some r.
Proof.
  intros Hu Hv. induction u as [|c u IH]; simpl in *; [exact Hv|].
  apply andb_prop in Hu as [Hc Hu].
  now rewrite Hc, (IH Hu).
Qed.

(** A greedy repetition fails when its continuation fails at the end of
    the text and in front of every character of it. *)
Lemma rep_greedy_none (p q : ascii -> bool) (v : string) (g : groups) (k : cont) :
  k "" g = None ->
  (forall c t, q c = true -> k (String c t) g = None) ->
  forall_chars q v = true ->
  rep_greedy p v g k = None.
Proof.
  intros Hnil Hk. induction v as [|c v IH]; simpl; intros Hv; [exact Hnil|].
  apply andb_prop in Hv as [Hc Hv].
  rewrite (IH Hv), (Hk c v Hc). now destruct (p c).
Qed.

(** A lazy repetition moves over a prefix in front of whose every
    character the continuation fails. *)
Lemma rep_lazy_skip (p : ascii -> bool) (u v : string) (g : groups) (k : cont) :
  forall_chars (fun c => p c) u = true ->
  (forall c t, In c (list_ascii_of_string u) -> k (String c t) g = None) ->
  rep_lazy p (u ++ v) g k = rep_lazy p v g k.
Proof.
  induction u as [|c u IH]; simpl; intros Hu Hk; [reflexivity|].
  apply andb_prop in Hu as [Hc Hu].
  rewrite (Hk c (u ++ v) (or_introl eq_refl)), Hc.
  apply IH; [exact Hu|]. intros c' t Hin. apply Hk. now right.
Qed.

Lemma rep_lazy_here (p : ascii -> bool) (v : string) (g : groups) (k : cont) r :
  k v g = Some r -> rep_lazy p v g k = Some r.
Proof. intros H. destruct v; simpl; now rewrite H. Qed.

Lemma forall_chars_In (p : ascii -> bool) (s : string) (c : ascii) :
  forall_chars p s = true -> In c (list_ascii_of_string s) -> p c = true.
Proof.
  induction s as [|x s IH]; simpl; [tauto|].
  intros H [->|Hin]; apply andb_prop in H as [Hx Hs]; [exact Hx | now apply IH].
Qed.

(* ================================================================== *)
(** * [bmessage]: what the method pattern reads *)

Lemma space_not_close_paren (c : ascii) :
  is_space c = true -> negb (is_close_paren c) = true.
Proof.
  unfold is_space, is_close_paren. intros H.
  destruct (Ascii.eqb_spec c ")") as [->|]; [discriminate H | reflexivity].
Qed.

Lemma space_is_dot_or_newline (c : ascii) :
  is_space c = false -> is_dot c = true.
Proof.
  unfold is_space, is_dot, newline. intros H.
  destruct (Ascii.eqb_spec c "010") as [->|]; [discriminate H | reflexivity].
Qed.

(** The selector group followed by the closing bracket. *)
Lemma selector_tail_reads (sel : string) (g : groups) (k : cont) r :
  forall_chars is_dot sel = true ->
  k "" (set_group "selector" sel g) = Some r ->
  re_run selector_tail (sel ++ "]") g k = Some r.
Proof.
  intros Hsel Hk. unfold selector_tail. simpl re_run.
  apply rep_greedy_skip; [exact Hsel|].
  simpl. now rewrite consumed_append.
Qed.

(** White space, then the selector and the closing bracket. *)
Lemma space_tail_reads (ws sel : string) (g : groups) (k : cont) r :
  white_space ws = true ->
  plain_selector sel = true ->
  k "" (set_group "selector" sel g) = Some r ->
  re_run space_tail (ws ++ sel ++ "]") g k = Some r.
Proof.
  unfold white_space, plain_selector.
  intros Hws Hsel Hk.
  apply andb_prop in Hws as [Hne Hws]. apply andb_prop in Hsel as [Hhd Hsel].
  assert (Hdot : forall_chars is_dot sel = true).
  { revert Hsel. apply forall_chars_impl. intros c H. now apply andb_prop in H as [H _]. }
  destruct ws as [|c ws]; [discriminate Hne|].
  simpl in Hws. apply andb_prop in Hws as [Hc Hws].
  unfold space_tail. simpl re_run. rewrite Hc.
  apply rep_greedy_skip; [exact Hws|].
  destruct sel as [|d sel]; simpl.
  - apply (selector_tail_reads "" g k r); [reflexivity | exact Hk].
  - simpl in Hhd. apply negb_true_iff in Hhd. rewrite Hhd.
    apply (selector_tail_reads (String d sel) g k r); assumption.
Qed.

(** Without a category: the optional group fails on the white space and
    is skipped. *)
Lemma category_tail_reads_none (ws sel : string) (g : groups) (k : cont) r :
  white_space ws = true ->
  plain_selector sel = true ->
  k "" (set_group "selector" sel g) = Some r ->
  re_run category_tail (ws ++ sel ++ "]") g k = Some r.
Proof.
  intros Hws Hsel Hk.
  pose proof (space_tail_reads ws sel g k r Hws Hsel Hk) as Htail.
  unfold white_space in Hws. apply andb_prop in Hws as [Hne Hws].
  destruct ws as [|c ws]; [discriminate Hne|].
  simpl in Hws. apply andb_prop in Hws as [Hc _].
  unfold category_tail, category_item. simpl re_run.
  destruct (Ascii.eqb_spec "(" c) as [<-|_]; [discriminate Hc|].
  exact Htail.
Qed.


(** With a category: the greedy group runs to the end of the text and
    comes back to the one closing parenthesis that white space follows. *)
Lemma category_tail_reads_some (c ws sel : string) (g : groups) (k : cont) r :
  plain_category (Some c) = true ->
  white_space ws = true ->
  plain_selector sel = true ->
  k "" (set_group "selector" sel (set_group "category" ("(" ++ c ++ ")") g)) = Some r ->
  re_run category_tail ("(" ++ c ++ ")" ++ ws ++ sel ++ "]") g k = Some r.
Proof.
  intros Hc Hws Hsel Hk.
  pose proof (space_tail_reads ws sel _ k r Hws Hsel Hk) as Htail.
  unfold plain_category in Hc. apply andb_prop in Hc as [Hne Hc].
  destruct c as [|c0 c]; [discriminate Hne|].
  simpl in Hc. apply andb_prop in Hc as [Hc0 Hc].
  unfold category_tail, category_item. simpl re_run. rewrite Hc0.
  set (X := ws ++ sel ++ "]") in *.
  match goal with |- context [rep_greedy is_dot _ g ?K] => set (K0 := K) end.
  assert (Hcons : consumed (String "(" (String c0 (c ++ String ")" X))) X
                  = "(" ++ String c0 c ++ ")").
  { replace (String "(" (String c0 (c ++ String ")" X)))
      with (("(" ++ String c0 c ++ ")") ++ X)
      by (simpl; now rewrite append_assoc).
    apply consumed_append. }
  assert (Hnone : rep_greedy is_dot X g K0 = None).
  { apply (rep_greedy_none is_dot (fun c => negb (is_close_paren c))).
    - reflexivity.
    - intros d t Hd. unfold K0. unfold is_close_paren in Hd.
      rewrite Ascii.eqb_sym. now apply negb_true_iff in Hd as ->.
    - unfold X. rewrite !forall_chars_append.
      unfold white_space in Hws. apply andb_prop in Hws as [_ Hws].
      unfold plain_selector in Hsel. apply andb_prop in Hsel as [_ Hsel].
      rewrite (forall_chars_impl is_space (fun c => negb (is_close_paren c)) ws
                 space_not_close_paren Hws).
      rewrite (forall_chars_impl
                 (fun c => is_dot c && negb (is_close_paren c))%bool
                 (fun c => negb (is_close_paren c)) sel);
        [reflexivity | | exact Hsel].
      intros d H. now apply andb_prop in H as [_ H]. }
  assert (HK : rep_greedy is_dot (String ")" X) g K0 = Some r).
  { simpl. rewrite Hnone, Hcons. exact Htail. }
  now rewrite (rep_greedy_skip is_dot c _ g K0 r Hc HK).
Qed.

Lemma target_tail_unfold (s : string) (g : groups) (k : cont) :
  re_run target_tail s g k
  = rep_lazy is_dot s g
      (fun s' g' => re_run category_tail s' (set_group "target" (consumed s s') g') k).
Proof. reflexivity. Qed.

Lemma category_tail_stuck (c : ascii) (t : string) (g : groups) (k : cont) :
  is_space c = false -> is_open_paren c = false ->
  re_run category_tail (String c t) g k = None.
Proof.
  intros Hs Hp. unfold category_tail, category_item. simpl re_run.
  unfold is_open_paren in Hp. rewrite Ascii.eqb_sym in Hp. now rewrite Hp, Hs.
Qed.

(** The lazy target group stops at the first place from which the rest of
    the pattern matches: behind a target without white space and without
    an opening parenthesis. *)
Lemma target_tail_reads (t : string) (category : option string) (ws sel : string)
    (g : groups) (k : cont) r :
  plain_target t = true ->
  plain_category category = true ->
  white_space ws = true ->
  plain_selector sel = true ->
  k "" (set_group "selector" sel (with_category category (set_group "target" t g))) = Some r ->
  re_run target_tail (t ++ category_text category ++ ws ++ sel ++ "]") g k = Some r.
Proof.
  intros Ht Hc Hws Hsel Hk. unfold plain_target in Ht.
  rewrite target_tail_unfold.
  rewrite rep_lazy_skip.
  - apply rep_lazy_here. rewrite consumed_append.
    destruct category as [c|].
    + replace (category_text (Some c) ++ ws ++ sel ++ "]")
        with ("(" ++ c ++ ")" ++ ws ++ sel ++ "]")
        by (simpl; now rewrite append_assoc).
      now apply category_tail_reads_some.
    + now apply category_tail_reads_none.
  - revert Ht. apply forall_chars_impl. intros c H.
    apply andb_prop in H as [H _]. apply negb_true_iff in H.
    now apply space_is_dot_or_newline.
  - intros c t' Hin.
    pose proof (forall_chars_In _ _ _ Ht Hin) as H. simpl in H.
    apply andb_prop in H as [H1 H2].
    apply negb_true_iff in H1. apply negb_true_iff in H2.
    now apply category_tail_stuck.
Qed.

Lemma methodPattern_unfold (s : string) (g : groups) (k : cont) :
  re_run methodPattern s g k
  = match
      re_run (Cls is_plus_minus) s g
        (fun s' g' =>
           re_run (Cat (Lit "[") target_tail) s' (set_group "scope" (consumed s s') g') k)
    with
    | Some res => Some res
    | None => re_run (Cat (Lit "[") target_tail) s g k
    end.
Proof. reflexivity. Qed.

Lemma bracket_unfold (rest : string) (g : groups) (k : cont) :
  re_run (Cat (Lit "[") target_tail) (String "[" rest) g k = re_run target_tail rest g k.
Proof. reflexivity. Qed.

Lemma cls_unfold (p : ascii -> bool) (c : ascii) (s : string) (g : groups) (k : cont) :
  re_run (Cls p) (String c s) g k = if p c then k s g else None.
Proof. reflexivity. Qed.

Lemma scope_reads (m : scope_marker) (rest : string) (g : groups) (k : cont) r :
  re_run target_tail rest
    (match scope_group m with Some s => set_group "scope" s g | None => g end) k = Some r ->
  re_run methodPattern (scope_text m ++ "[" ++ rest) g k = Some r.
Proof.
  intros H. rewrite methodPattern_unfold.
  destruct m; simpl scope_text; simpl scope_group in H.
  - change ("" ++ "[" ++ rest) with (String "[" rest).
    rewrite cls_unfold. change (is_plus_minus "[") with false. cbv iota.
    now rewrite bracket_unfold.
  - change ("-" ++ "[" ++ rest) with (String "-" (String "[" rest)).
    rewrite cls_unfold. change (is_plus_minus "-") with true. cbv iota beta.
    rewrite bracket_unfold.
    change (String "-" (String "[" rest)) with ("-" ++ String "[" rest).
    now rewrite consumed_append, H.
  - change ("+" ++ "[" ++ rest) with (String "+" (String "[" rest)).
    rewrite cls_unfold. change (is_plus_minus "+") with true. cbv iota beta.
    rewrite bracket_unfold.
    change (String "+" (String "[" rest)) with ("+" ++ String "[" rest).
    now rewrite consumed_append, H.
Qed.

(** What [parse_method] answers on a method reference whose parts are
    plain: each part, whole. *)
Lemma parse_method_reads (m : scope_marker) (t : string) (category : option string)
    (ws sel : string) :
  plain_target t = true ->
  plain_category category = true ->
  white_space ws = true ->
  plain_selector sel = true ->
  re_match methodPattern (method_reference m t category ws sel)
  = Some (set_group "selector" sel
            (with_category category
               (set_group "target" t
                  (match scope_group m with
                   | Some s => set_group "scope" s []
                   | None => []
                   end)))).
Proof.
  intros Ht Hc Hws Hsel. unfold re_match, method_reference.
  apply scope_reads. now apply target_tail_reads.
Qed.

(* ================================================================== *)
(** * [bmessage]: the hierarchy ascent *)

Lemma py_eq_refl (v : pyval) : py_eq v v = true.
Proof.
  destruct v; simpl; [apply Z.eqb_refl | apply String.eqb_refl | reflexivity].
Qed.

Lemma ascend_found (fuel : nat) (w : World) (sel k : string) :
  ascend fuel w sel true k = Ok (true, k).
Proof. now destruct fuel. Qed.

(** One iteration at a live handle: stop with the owner, or go on from
    the superclass. *)
Lemma ascend_step (fuel : nat) (w : World) (sel k : string) :
  live_handle w k ->
  ascend (S fuel) w sel false k
  = if classItselfImplementsSelector w k sel
    then Ok (true, k)
    else ascend fuel w sel false (class_getSuperclass w k).
Proof.
  intros [n [Hn Hpos]]. simpl. rewrite Hn.
  apply Z.ltb_lt in Hpos. rewrite Hpos.
  now rewrite ascend_found.
Qed.

(** At a null handle the loop is left at once. *)
Lemma ascend_null (fuel : nat) (w : World) (sel k : string) :
  null_handle w k -> ascend fuel w sel false k = Ok (false, k).
Proof.
  intros [n [Hn Hle]].
  assert (H : (0 <? n) = false) by (apply Z.ltb_ge; exact Hle).
  destruct fuel; simpl; now rewrite Hn, H.
Qed.

Lemma readable_live_or_null (w : World) (k : string) :
  int0 w k <> None -> live_handle w k \/ null_handle w k.
Proof.
  unfold live_handle, null_handle.
  destruct (int0 w k) as [n|]; [intros _ | congruence].
  destruct (Z_lt_le_dec 0 n); [left | right]; now exists n.
Qed.

(** When no class of a chain of depth [d] owns the selector, the ascent
    ends at the null handle that closes the chain. *)
Lemma ascend_no_owner (w : World) (sel : string) (d : nat) :
  forall (root : string) (fuel : nat),
  (forall i, (i < d)%nat ->
     live_handle w (nth_superclass w i root)
     /\ classItselfImplementsSelector w (nth_superclass w i root) sel = false) ->
  null_handle w (nth_superclass w d root) ->
  (d <= fuel)%nat ->
  ascend fuel w sel false root = Ok (false, nth_superclass w d root).
Proof.
  induction d as [|d IH]; intros root fuel Hchain Hnull Hfuel.
  - now apply ascend_null.
  - destruct fuel as [|fuel]; [lia|].
    destruct (Hchain 0%nat ltac:(lia)) as [Hlive Hno]. simpl in Hlive, Hno.
    rewrite (ascend_step fuel w sel root Hlive), Hno. simpl nth_superclass.
    apply IH; [| exact Hnull | lia].
    intros i Hi. exact (Hchain (S i) ltac:(lia)).
Qed.

(** On a chain of depth [d] the ascent ends within [d] iterations, at a
    class of the chain. *)
Lemma ascend_within_depth (w : World) (sel : string) (d : nat) :
  forall root : string,
  (forall i, (i <= d)%nat -> int0 w (nth_superclass w i root) <> None) ->
  null_handle w (nth_superclass w d root) ->
  exists (found : bool) (i : nat),
    (i <= d)%nat
    /\ ascend d w sel false root = Ok (found, nth_superclass w i root)
    /\ (if found
        then live_handle w (nth_superclass w i root)
             /\ classItselfImplementsSelector w (nth_superclass w i root) sel = true
        else null_handle w (nth_superclass w i root)).
Proof.
  induction d as [|d IH]; intros root Hread Hnull.
  - exists false, 0%nat. split; [lia|]. split; [now apply ascend_null | exact Hnull].
  - destruct (readable_live_or_null w root (Hread 0%nat ltac:(lia))) as [Hlive|Hnull0].
    + rewrite (ascend_step d w sel root Hlive).
      destruct (classItselfImplementsSelector w root sel) eqn:Hown.
      * exists true, 0%nat. split; [lia|]. split; [reflexivity|]. now split.
      * destruct (IH (class_getSuperclass w root)) as [found [i [Hi [Hrun Hres]]]].
        -- intros i Hi. exact (Hread (S i) ltac:(lia)).
        -- exact Hnull.
        -- exists found, (S i). split; [lia|]. now split.
    + exists false, 0%nat. split; [lia|]. split; [now apply ascend_null | exact Hnull0].
Qed.

(** More fuel does not change an ascent that ended. *)
Lemma ascend_more_fuel (w : World) (sel : string) (fuel : nat) :
  forall (fuel' : nat) (found : bool) (k : string) (r : bool * string),
  ascend fuel w sel found k = Ok r ->
  (fuel <= fuel')%nat ->
  ascend fuel' w sel found k = Ok r.
Proof.
  induction fuel as [|fuel IH]; intros fuel' found k r Hrun Hle.
  - destruct found.
    + now rewrite ascend_found in *.
    + simpl in Hrun. destruct fuel'; simpl; destruct (int0 w k) as [n|]; try discriminate;
        destruct (0 <? n); try discriminate; exact Hrun.
  - destruct fuel' as [|fuel']; [lia|].
    destruct found; [exact Hrun|].
    simpl in *. destruct (int0 w k) as [n|]; [|discriminate].
    destruct (0 <? n); [|exact Hrun].
    destruct (classItselfImplementsSelector w k sel); apply IH; (exact Hrun || lia).
Qed.

(* ================================================================== *)
(** * [bmessage]: the shape of a run *)

Lemma resolveTarget_cases (w : World) (c : string) (m : bool) :
  (exists line, resolveTarget w c m = ([Print line], Ok None))
  \/ (exists e, resolveTarget w c m = ([], Raised e))
  \/ (exists r, resolveTarget w c m = ([], Ok (Some r))).
Proof.
  unfold resolveTarget. cbv zeta.
  match goal with |- context [bind (print ?line) _] => set (msg := line) end.
  set (tc := evaluateObjectExpression w ("[" ++ format_opt _ ++ " class]")).
  unfold py_int0, bind, ret, print, emit, raise.
  destruct (truthy tc); cbn [negb]; [|left; exists msg; reflexivity].
  destruct tc as [cls|]; [|right; left; exists TypeError; reflexivity].
  destruct (int0 w cls) as [n|]; [|right; left; exists ValueError; reflexivity].
  cbv beta iota.
  destruct (n =? 0); [left; exists msg; reflexivity|].
  right; right. eexists. reflexivity.
Qed.

(** A run that got past parsing and resolution: one line is printed when
    the ascent finds no owner; else the announcement and one breakpoint
    command. *)
Lemma bmessage_run_resolved (fuel : nat) (w : World) (expression : string)
    (rest : list string) (g : groups) (isClass : bool) (obj : option string)
    (root : string) (found : bool) (k : string) :
  re_match methodPattern expression = Some g ->
  truthy (functionPreambleExpressionForSelf w) = true ->
  resolveTarget w (format_opt (group g "target")) (scope_is_plus (group g "scope"))
  = ([], Ok (Some (isClass, obj, root))) ->
  ascend fuel w (format_opt (group g "selector")) false root = Ok (found, k) ->
  let sel := format_opt (group g "selector") in
  let mtc := if scope_is_plus (group g "scope") then "+" else "-" in
  let name := class_getName w k in
  let fullName :=
    breakpointFullName mtc name
      (if truthy (group g "category") then format_opt (group g "category") else "") sel in
  let condition :=
    breakpointCondition isClass (format_opt (functionPreambleExpressionForSelf w)) obj root in
  bmessage_run fuel w (expression :: rest)
  = if found
    then ([Print ("Setting a breakpoint at " ++ fullName ++ " with condition " ++ condition);
           HandleCommand
             (breakpointCommand (group g "category") fullName
                (breakpointPattern mtc name sel) condition)],
          Ok tt)
    else ([Print (noImplementation sel)], Ok tt).
Proof.
  intros Hm Hself Hres Hasc. simpl.
  unfold bmessage_run. rewrite Hm, Hself. simpl negb. cbv iota.
  rewrite Hres. unfold bind at 1. unfold lift. rewrite Hasc.
  destruct found; reflexivity.
Qed.

(** A breakpoint command in the trace of [bmessage] comes from a run that
    parsed, resolved the target and found an owner. *)
Lemma bmessage_command_inv (fuel : nat) (w : World) (arguments : list string) (cmd : string) :
  In (HandleCommand cmd) (trace (bmessage_run fuel w arguments)) ->
  exists expression rest g isClass obj root k,
    arguments = expression :: rest
    /\ re_match methodPattern expression = Some g
    /\ truthy (functionPreambleExpressionForSelf w) = true
    /\ resolveTarget w (format_opt (group g "target")) (scope_is_plus (group g "scope"))
       = ([], Ok (Some (isClass, obj, root)))
    /\ ascend fuel w (format_opt (group g "selector")) false root = Ok (true, k)
    /\ bmessage_run fuel w arguments
       = ([Print ("Setting a breakpoint at "
                  ++ breakpointFullName
                       (if scope_is_plus (group g "scope") then "+" else "-")
                       (class_getName w k)
                       (if truthy (group g "category")
                        then format_opt (group g "category") else "")
                       (format_opt (group g "selector"))
                  ++ " with condition "
                  ++ breakpointCondition isClass
                       (format_opt (functionPreambleExpressionForSelf w)) obj root);
           HandleCommand cmd],
          Ok tt)
    /\ cmd = breakpointCommand (group g "category")
               (breakpointFullName
                  (if scope_is_plus (group g "scope") then "+" else "-")
                  (class_getName w k)
                  (if truthy (group g "category")
                   then format_opt (group g "category") else "")
                  (format_opt (group g "selector")))
               (breakpointPattern
                  (if scope_is_plus (group g "scope") then "+" else "-")
                  (class_getName w k) (format_opt (group g "selector")))
               (breakpointCondition isClass
                  (format_opt (functionPreambleExpressionForSelf w)) obj root).
Proof.
  destruct arguments as [|expression rest]; [intros []|].
  destruct (re_match methodPattern expression) as [g|] eqn:Hm.
  2:{ unfold bmessage_run. rewrite Hm. intros [H|[]]. discriminate H. }
  destruct (truthy (functionPreambleExpressionForSelf w)) eqn:Hself.
  2:{ unfold bmessage_run. rewrite Hm, Hself. intros []. }
  destruct (resolveTarget_cases w (format_opt (group g "target"))
              (scope_is_plus (group g "scope")))
    as [[line Hres] | [[e Hres] | [[[isClass obj] root] Hres]]].
  1,2: unfold bmessage_run; rewrite Hm, Hself; simpl negb; cbv iota;
       rewrite Hres; unfold bind, ret; cbn [trace fst app];
       try (intros [H|[]]; discriminate H); intros [].
  destruct (ascend fuel w (format_opt (group g "selector")) false root)
    as [[found k]| e |] eqn:Hasc.
  2,3: unfold bmessage_run; rewrite Hm, Hself; simpl negb; cbv iota;
       rewrite Hres; unfold bind at 1; unfold lift; rewrite Hasc; intros [].
  rewrite (bmessage_run_resolved fuel w expression rest g isClass obj root found k
             Hm Hself Hres Hasc).
  destruct found.
  - intros [H | [H | []]]; [discriminate H|]. injection H as <-.
    exists expression, rest, g, isClass, obj, root, k. repeat split; assumption.
  - intros [H|[]]. discriminate H.
Qed.

(* ================================================================== *)
(** * [binside] and the text of an integer *)

Lemma string_of_uint_digits (d : Decimal.uint) :
  forall_chars is_sign_or_digit (NilEmpty.string_of_uint d) = true.
Proof. induction d; simpl; try reflexivity; exact IHd. Qed.

Lemma nilzero_uint_digits (d : Decimal.uint) :
  forall_chars is_sign_or_digit (NilZero.string_of_uint d) = true.
Proof.
  unfold NilZero.string_of_uint.
  destruct d; [reflexivity | apply string_of_uint_digits ..].
Qed.

Lemma format_Z_digits (n : Z) : forall_chars is_sign_or_digit (format_Z n) = true.
Proof.
  unfold format_Z, NilZero.string_of_int.
  destruct (Z.to_int n) as [d|d]; [apply nilzero_uint_digits|].
  cbn [forall_chars]. now rewrite nilzero_uint_digits.
Qed.

Lemma prefix_cons (a b : ascii) (s1 s2 : string) :
  String.prefix (String a s1) (String b s2)
  = (Ascii.eqb a b && String.prefix s1 s2)%bool.
Proof.
  simpl. destruct (ascii_dec a b) as [->|Hne].
  - now rewrite Ascii.eqb_refl.
  - apply Ascii.eqb_neq in Hne. now rewrite Hne.
Qed.

Lemma no_condition_prefix (s : string) :
  forall_chars is_sign_or_digit s = true -> String.prefix "--condition" s = false.
Proof.
  intros H.
  destruct s as [|a [|b [|c s]]]; try reflexivity.
  - rewrite prefix_cons. simpl String.prefix. apply andb_false_r.
  - rewrite !prefix_cons. simpl String.prefix. rewrite andb_false_r. apply andb_false_r.
  - rewrite !prefix_cons. simpl in H.
    apply andb_prop in H as [_ H]. apply andb_prop in H as [_ H].
    apply andb_prop in H as [Hc _].
    destruct (Ascii.eqb_spec "c" c) as [<-|_]; [discriminate Hc|].
    cbn [andb]. now rewrite !andb_false_r.
Qed.

(** The text of an integer holds no [--condition]. *)
Lemma no_condition_in_digits (s : string) :
  forall_chars is_sign_or_digit s = true -> contains "--condition" s = false.
Proof.
  induction s as [|a s IH]; intros H; [reflexivity|].
  change (contains "--condition" (String a s))
    with (String.prefix "--condition" (String a s) || contains "--condition" s)%bool.
  rewrite (no_condition_prefix _ H).
  simpl in H. apply andb_prop in H as [_ H]. now rewrite (IH H).
Qed.

Lemma address_command_unguarded (n : Z) :
  contains "--condition" ("breakpoint set --address " ++ format_Z n) = false.
Proof.
  pose proof (no_condition_in_digits _ (format_Z_digits n)) as H.
  set (d := format_Z n) in *.
  cbn -[contains String.prefix].
  repeat (match goal with
          | |- contains _ (String ?a ?s) = false =>
              change (contains "--condition" (String a s))
                with (String.prefix "--condition" (String a s)
                      || contains "--condition" s)%bool;
              rewrite !prefix_cons; cbn [Ascii.eqb Bool.eqb andb orb]
          end).
  exact H.
Qed.

(* ================================================================== *)
(** * [findinstances]: escaping the predicate *)

(** The escaping leaves every backslash as it is. *)
Lemma escape_predicate_backslash (s : string) :
  escape_predicate (String backslash s) = String backslash (escape_predicate s).
Proof. reflexivity. Qed.

(** On text without backslashes the escaping is undone by one level of
    unescaping. *)
Lemma escape_roundtrip_without_backslash (s : string) :
  forall_chars (fun c => negb (Ascii.eqb c backslash)) s = true ->
  unescape (escape_predicate s) = Some s.
Proof.
  unfold escape_predicate, escape_class.
  induction s as [|c s IH]; intros H; [reflexivity|].
  simpl in H. apply andb_prop in H as [Hc Hs]. apply negb_true_iff in Hc.
  specialize (IH Hs). cbn [re_sub_escape].
  destruct (Ascii.eqb_spec c dquote) as [->|Hq].
  - cbn [unescape]. rewrite Ascii.eqb_refl. cbn [orb].
    change (Ascii.eqb dquote backslash) with false. cbn [orb].
    rewrite Ascii.eqb_refl. now rewrite IH.
  - cbn [unescape]. rewrite Hc.
    apply Ascii.eqb_neq in Hq. rewrite Hq. now rewrite IH.
Qed.

(* ================================================================== *)
(** * [bmessage]: targets and selectors with parentheses *)

Lemma no_paren_gap_tail (u v : string) :
  no_paren_gap (u ++ v) = true -> no_paren_gap v = true.
Proof.
  induction u as [|c u IH]; simpl; [trivial|].
  intros H. apply andb_prop in H as [_ H]. now apply IH.
Qed.

Lemma head_is_append (p : ascii -> bool) (u v : string) :
  head_is p (u ++ v) = match u with EmptyString => head_is p v | String c _ => p c end.
Proof. now destruct u. Qed.

Lemma no_paren_gap_append (u v : string) :
  no_paren_gap u = true -> no_paren_gap v = true ->
  (ends_with is_close_paren u && head_is is_space v)%bool = false ->
  no_paren_gap (u ++ v) = true.
Proof.
  induction u as [|c u IH]; simpl; [trivial|].
  intros Hu Hv Hb. apply andb_prop in Hu as [Hc Hu].
  destruct u as [|d u].
  - simpl in *. now rewrite Hb, Hv.
  - rewrite IH; [| exact Hu | exact Hv | exact Hb].
    change (head_is is_space (String d u ++ v)) with (is_space d).
    change (head_is is_space (String d u)) with (is_space d) in Hc.
    now rewrite Hc.
Qed.

Lemma no_space_no_paren_gap (t : string) : no_space t = true -> no_paren_gap t = true.
Proof.
  unfold no_space. induction t as [|c t IH]; simpl; [trivial|].
  intros H. apply andb_prop in H as [_ Ht]. rewrite (IH Ht).
  destruct t as [|d t]; simpl; [now rewrite andb_false_r|].
  simpl in Ht. apply andb_prop in Ht as [Hd _]. apply negb_true_iff in Hd.
  now rewrite Hd, andb_false_r.
Qed.

Lemma white_space_no_paren_gap (ws : string) :
  forall_chars is_space ws = true ->
  no_paren_gap ws = true /\ ends_with is_close_paren ws = false.
Proof.
  induction ws as [|c ws IH]; simpl; [now split|].
  intros H. apply andb_prop in H as [Hc Hws]. destruct (IH Hws) as [Hg He].
  assert (Hp : is_close_paren c = false).
  { apply negb_true_iff. now apply space_not_close_paren. }
  rewrite Hp, Hg. split; [reflexivity|]. now destruct ws.
Qed.

(** Behind white space and a selector, with the closing bracket, no
    category can end when none can end inside the selector. *)
Lemma no_paren_gap_rest (ws sel : string) :
  forall_chars is_space ws = true -> no_paren_gap sel = true ->
  no_paren_gap (ws ++ sel ++ "]") = true.
Proof.
  intros Hws Hsel. destruct (white_space_no_paren_gap ws Hws) as [Hg He].
  apply no_paren_gap_append; [exact Hg | | now rewrite He].
  apply no_paren_gap_append; [exact Hsel | reflexivity | apply andb_false_r].
Qed.

Lemma space_tail_stuck (s : string) (g : groups) (k : cont) :
  head_is is_space s = false -> re_run space_tail s g k = None.
Proof.
  intros H. unfold space_tail.
  change (re_run (Cat (Rep is_space true Greedy) selector_tail) s g k)
    with (match s with
          | String c' s' =>
              if is_space c'
              then rep_greedy is_space s' g (fun s1 g1 => re_run selector_tail s1 g1 k)
              else None
          | EmptyString => None
          end).
  destruct s as [|c s]; [reflexivity|]. simpl in H. now rewrite H.
Qed.

(** A greedy repetition fails when its continuation fails at the end of
    the text and wherever no closing parenthesis stands in front of
    white space. *)
Lemma rep_greedy_none_gap (p : ascii -> bool) (v : string) (g : groups) (k : cont) :
  k "" g = None ->
  (forall d r, (is_close_paren d && head_is is_space r)%bool = false ->
               k (String d r) g = None) ->
  no_paren_gap v = true ->
  rep_greedy p v g k = None.
Proof.
  intros Hnil Hk. induction v as [|c v IH]; simpl; intros Hv; [exact Hnil|].
  apply andb_prop in Hv as [Hc Hv]. apply negb_true_iff in Hc.
  rewrite (IH Hv), (Hk c v Hc). now destruct (p c).
Qed.

Lemma category_group_unfold (s : string) (g : groups) (k : cont) :
  re_run category_tail s g k
  = match
      re_run (Lit "(") s g
        (fun s1 g1 =>
           match s1 with
           | String c' s2 =>
               if is_dot c'
               then rep_greedy is_dot s2 g1
                      (fun s3 g3 =>
                         re_run (Lit ")") s3 g3
                           (fun s4 g4 =>
                              re_run space_tail s4
                                (set_group "category" (consumed s s4) g4) k))
               else None
           | EmptyString => None
           end)
    with
    | Some r => Some r
    | None => re_run space_tail s g k
    end.
Proof. reflexivity. Qed.

Lemma close_paren_cont_stuck (d : ascii) (r : string) (x : option groups) :
  (is_close_paren d && head_is is_space r)%bool = false ->
  (head_is is_space r = false -> x = None) ->
  (if Ascii.eqb ")" d then x else None) = None.
Proof.
  intros Hgap Hx. unfold is_close_paren in Hgap. rewrite Ascii.eqb_sym in Hgap.
  destruct (Ascii.eqb ")" d); [|reflexivity].
  cbn [andb] in Hgap. now apply Hx.
Qed.

(** From an opening parenthesis behind which no category can end, the
    rest of the pattern does not match. *)
Lemma category_tail_stuck_paren (rest : string) (g : groups) (k : cont) :
  no_paren_gap rest = true ->
  re_run category_tail (String "(" rest) g k = None.
Proof.
  intros Hgap. rewrite category_group_unfold.
  rewrite (space_tail_stuck (String "(" rest) g k eq_refl).
  cbn [re_run]. change (Ascii.eqb "(" "(") with true. cbv iota.
  destruct rest as [|c0 rest]; [reflexivity|].
  destruct (is_dot c0); [|reflexivity].
  simpl in Hgap. apply andb_prop in Hgap as [_ Hgap].
  rewrite (rep_greedy_none_gap is_dot rest g); [reflexivity | reflexivity | | exact Hgap].
  intros d r Hd. apply (close_paren_cont_stuck d r); [exact Hd|].
  intros H4. now apply space_tail_stuck.
Qed.

(** White space, then a selector without newline that does not begin
    with white space, then the closing bracket. *)
Lemma space_tail_reads_selector (ws sel : string) (g : groups) (k : cont) r :
  white_space ws = true ->
  forall_chars is_dot sel = true ->
  head_is is_space sel = false ->
  k "" (set_group "selector" sel g) = Some r ->
  re_run space_tail (ws ++ sel ++ "]") g k = Some r.
Proof.
  unfold white_space. intros Hws Hdot Hhd Hk.
  apply andb_prop in Hws as [Hne Hws].
  destruct ws as [|c ws]; [discriminate Hne|].
  simpl in Hws. apply andb_prop in Hws as [Hc Hws].
  unfold space_tail. simpl re_run. rewrite Hc.
  apply rep_greedy_skip; [exact Hws|].
  destruct sel as [|d sel]; simpl.
  - apply (selector_tail_reads "" g k r); [reflexivity | exact Hk].
  - simpl in Hhd. rewrite Hhd.
    apply (selector_tail_reads (String d sel) g k r); assumption.
Qed.

Lemma category_tail_reads_absent (ws sel : string) (g : groups) (k : cont) r :
  white_space ws = true ->
  forall_chars is_dot sel = true ->
  head_is is_space sel = false ->
  k "" (set_group "selector" sel g) = Some r ->
  re_run category_tail (ws ++ sel ++ "]") g k = Some r.
Proof.
  intros Hws Hdot Hhd Hk.
  pose proof (space_tail_reads_selector ws sel g k r Hws Hdot Hhd Hk) as Htail.
  unfold white_space in Hws. apply andb_prop in Hws as [Hne Hws].
  destruct ws as [|c ws]; [discriminate Hne|].
  simpl in Hws. apply andb_prop in Hws as [Hc _].
  rewrite category_group_unfold.
  change (String c ws ++ sel ++ "]") with (String c (ws ++ sel ++ "]")) in *.
  cbn [re_run].
  destruct (Ascii.eqb_spec "(" c) as [<-|_]; [discriminate Hc|].
  exact Htail.
Qed.

Lemma category_tail_reads_present (c ws sel : string) (g : groups) (k : cont) r :
  plain_category (Some c) = true ->
  white_space ws = true ->
  forall_chars is_dot sel = true ->
  head_is is_space sel = false ->
  no_paren_gap sel = true ->
  k "" (set_group "selector" sel (set_group "category" ("(" ++ c ++ ")") g)) = Some r ->
  re_run category_tail ("(" ++ c ++ ")" ++ ws ++ sel ++ "]") g k = Some r.
Proof.
  intros Hc Hws Hdot Hhd Hgap Hk.
  pose proof (space_tail_reads_selector ws sel _ k r Hws Hdot Hhd Hk) as Htail.
  unfold plain_category in Hc. apply andb_prop in Hc as [Hne Hc].
  destruct c as [|c0 c]; [discriminate Hne|].
  simpl in Hc. apply andb_prop in Hc as [Hc0 Hc].
  unfold white_space in Hws. apply andb_prop in Hws as [_ Hws].
  rewrite category_group_unfold.
  set (X := ws ++ sel ++ "]") in *.
  change ("(" ++ String c0 c ++ ")" ++ X) with (String "(" (String c0 (c ++ String ")" X))).
  cbn [re_run]. change (Ascii.eqb "(" "(") with true. cbv iota. rewrite Hc0.
  match goal with |- context [rep_greedy is_dot _ g ?K] => set (K0 := K) end.
  assert (Hcons : consumed (String "(" (String c0 (c ++ String ")" X))) X
                  = "(" ++ String c0 c ++ ")").
  { replace (String "(" (String c0 (c ++ String ")" X)))
      with (("(" ++ String c0 c ++ ")") ++ X)
      by (simpl; now rewrite append_assoc).
    apply consumed_append. }
  assert (Hnone : rep_greedy is_dot X g K0 = None).
  { apply rep_greedy_none_gap; [reflexivity | | now apply no_paren_gap_rest].
    intros d r0 Hd. unfold K0. cbv beta iota.
    apply (close_paren_cont_stuck d r0); [exact Hd|].
    intros H4. now apply space_tail_stuck. }
  assert (HK : rep_greedy is_dot (String ")" X) g K0 = Some r).
  { simpl. rewrite Hnone. unfold K0. cbn [re_run].
    change (Ascii.eqb ")" ")") with true. cbv iota. rewrite Hcons. exact Htail. }
  now rewrite (rep_greedy_skip is_dot c _ g K0 r Hc HK).
Qed.

(** A lazy repetition moves over a prefix in front of whose every
    character, with the text that follows it, the continuation fails. *)
Lemma rep_lazy_skip_text (p : ascii -> bool) (u v : string) (g : groups) (k : cont) :
  (forall u1 c u2, u = u1 ++ String c u2 ->
     p c = true /\ k (String c u2 ++ v) g = None) ->
  rep_lazy p (u ++ v) g k = rep_lazy p v g k.
Proof.
  induction u as [|c u IH]; intros H; [reflexivity|].
  destruct (H "" c u eq_refl) as [Hc Hk].
  change (String c u ++ v) with (String c (u ++ v)) in *.
  cbn [rep_lazy]. rewrite Hk, Hc.
  apply IH. intros u1 c' u2 ->. exact (H (String c u1) c' u2 eq_refl).
Qed.

Lemma no_space_split (u1 : string) (c : ascii) (u2 : string) :
  no_space (u1 ++ String c u2) = true -> is_space c = false /\ is_dot c = true.
Proof.
  unfold no_space. rewrite forall_chars_append. intros H.
  apply andb_prop in H as [_ H]. simpl in H. apply andb_prop in H as [H _].
  apply negb_true_iff in H. split; [exact H | now apply space_is_dot_or_newline].
Qed.

Lemma open_paren_in_target (u1 : string) (c : ascii) (u2 : string) :
  is_open_paren c = true -> has_char is_open_paren (u1 ++ String c u2) = true.
Proof.
  intros Hc. unfold has_char. rewrite forall_chars_append. simpl.
  now rewrite Hc, andb_false_r.
Qed.

(** The lazy target group stops behind a target without white space
    whose parentheses, with those of the selector, leave the category
    group no other way. *)
Lemma target_tail_reads_whole (t : string) (category : option string) (ws sel : string)
    (g : groups) (k : cont) r :
  no_space t = true ->
  plain_category category = true ->
  white_space ws = true ->
  forall_chars is_dot sel = true ->
  head_is is_space sel = false ->
  readable_parens t category sel = true ->
  k "" (set_group "selector" sel (with_category category (set_group "target" t g))) = Some r ->
  re_run target_tail (t ++ category_text category ++ ws ++ sel ++ "]") g k = Some r.
Proof.
  intros Ht Hc Hws Hdot Hhd Hpar Hk.
  rewrite target_tail_unfold. rewrite rep_lazy_skip_text.
  - apply rep_lazy_here. rewrite consumed_append.
    destruct category as [c|].
    + replace (category_text (Some c) ++ ws ++ sel ++ "]")
        with ("(" ++ c ++ ")" ++ ws ++ sel ++ "]")
        by (simpl; now rewrite append_assoc).
      simpl in Hpar. apply andb_prop in Hpar as [_ Hgap].
      now apply category_tail_reads_present.
    + now apply category_tail_reads_absent.
  - intros u1 c u2 Heq.
    assert (Hsplit := Ht). rewrite Heq in Hsplit.
    apply no_space_split in Hsplit as [Hsp Hd]. split; [exact Hd|].
    cbv beta. change (String c u2 ++ category_text category ++ ws ++ sel ++ "]")
      with (String c (u2 ++ category_text category ++ ws ++ sel ++ "]")).
    destruct (is_open_paren c) eqn:Hop; [|now apply category_tail_stuck].
    apply Ascii.eqb_eq in Hop. subst c.
    assert (Hin : has_char is_open_paren t = true)
      by (rewrite Heq; now apply open_paren_in_target).
    destruct category as [c|]; simpl in Hpar; rewrite Hin in Hpar; [discriminate Hpar|].
    cbn [negb orb] in Hpar. apply andb_prop in Hpar as [Hend Hgap].
    apply negb_true_iff in Hend.
    apply category_tail_stuck_paren.
    assert (Hall : no_paren_gap (t ++ ws ++ sel ++ "]") = true).
    { unfold white_space in Hws. apply andb_prop in Hws as [_ Hws].
      apply no_paren_gap_append;
        [now apply no_space_no_paren_gap | now apply no_paren_gap_rest | now rewrite Hend]. }
    rewrite Heq, append_assoc in Hall. apply no_paren_gap_tail in Hall.
    simpl in Hall. exact Hall.
Qed.

(** What the pattern reads on a method reference whose parts are read
    whole. *)
Lemma method_reference_reads (m : scope_marker) (t : string) (category : option string)
    (ws sel : string) :
  no_space t = true ->
  plain_category category = true ->
  white_space ws = true ->
  forall_chars is_dot sel = true ->
  head_is is_space sel = false ->
  readable_parens t category sel = true ->
  re_match methodPattern (method_reference m t category ws sel)
  = Some (set_group "selector" sel
            (with_category category
               (set_group "target" t
                  (match scope_group m with
                   | Some s => set_group "scope" s []
                   | None => []
                   end)))).
Proof.
  intros Ht Hc Hws Hdot Hhd Hpar. unfold re_match, method_reference.
  apply scope_reads. now apply target_tail_reads_whole.
Qed.

(* ================================================================== *)
(** * The claims *)

(** C1.  In a hierarchy where [C]'s superclass is [B] and [B]'s is [A],
    and only [A] provides an implementation of the selector ([C] and [B]
    answer the lookup with what their superclass answers, [A] answers
    with an implementation that the lookup at its own superclass does not
    yield), the ascent started at [C] ends with [A] as the owner.  At
    each of the three classes the test says "owner" exactly when the
    method fetched at the class differs from the one fetched at its
    superclass, or the class has one and the superclass has none. *)
Theorem C1_ascent_returns_owner (w : World) (A B C sel : string) (fuel : nat) :
  live_handle w A -> live_handle w B -> live_handle w C ->
  class_getSuperclass w C = B ->
  class_getSuperclass w B = A ->
  inherits w C sel ->
  inherits w B sel ->
  null_method (class_getInstanceMethod w A sel) = false ->
  py_eq (class_getInstanceMethod w A sel)
        (class_getInstanceMethod w (class_getSuperclass w A) sel) = false ->
  (3 <= fuel)%nat ->
  ascend fuel w sel false C = Ok (true, A)
  /\ (forall k, k = A \/ k = B \/ k = C ->
        let this := class_getInstanceMethod w k sel in
        let super := class_getInstanceMethod w (class_getSuperclass w k) sel in
        classItselfImplementsSelector w k sel = true
        <-> (py_eq this super = false
             \/ (null_method this = false /\ null_method super = true))).
Proof.
  intros HA HB HC HCB HBA HinC HinB Hnn Hown Hfuel.
  assert (HownA : classItselfImplementsSelector w A sel = true).
  { unfold classItselfImplementsSelector. unfold null_method in Hnn.
    now rewrite Hnn, Hown. }
  assert (Hinh : forall k, inherits w k sel -> classItselfImplementsSelector w k sel = false).
  { intros k Hk. unfold classItselfImplementsSelector. rewrite <- Hk, py_eq_refl.
    now destruct (py_eq _ (PyInt 0)). }
  split.
  - destruct fuel as [|[|[|fuel]]]; try lia.
    rewrite (ascend_step _ w sel C HC), (Hinh C HinC), HCB.
    rewrite (ascend_step _ w sel B HB), (Hinh B HinB), HBA.
    now rewrite (ascend_step _ w sel A HA), HownA.
  - intros k Hk this super.
    assert (Hcase : k = A \/ inherits w k sel).
    { destruct Hk as [->|[->| ->]]; [now left | now right | now right]. }
    destruct Hcase as [->|Hk'].
    + subst this super. rewrite HownA. split; [now left | reflexivity].
    + rewrite (Hinh k Hk'). subst this super. rewrite <- Hk', py_eq_refl.
      split; [discriminate|]. intros [H|[H1 H2]]; [discriminate H | congruence].
Qed.

(** C1, on the simulated hierarchy [A <- B <- C]. *)
Lemma C1_witness :
  ascend 3 abc_world "doThing:" false "0x3000" = Ok (true, "0x1000").
Proof.
  refine (proj1 (C1_ascent_returns_owner abc_world "0x1000" "0x2000" "0x3000"
                   "doThing:" 3 _ _ _ _ _ _ _ _ _ _)).
  - exists 4096. split; reflexivity.
  - exists 8192. split; reflexivity.
  - exists 12288. split; reflexivity.
  - reflexivity.
  - reflexivity.
  - reflexivity.
  - reflexivity.
  - reflexivity.
  - reflexivity.
  - apply le_n.
Defined.

(** C2, as the code has it.  For a method reference made of an optional
    scope marker, a target without white space, an optional non-empty
    category without newline, white space, and a selector without
    newline that does not begin with white space, the parse step reads
    every field whole (the category group keeps its parentheses),
    provided the parentheses leave the category group no other way:
    without a category, the target holds no opening parenthesis, or it
    does not end in a closing one and no closing parenthesis of the
    selector stands right in front of white space; with a category, the
    target holds no opening parenthesis and no closing parenthesis of
    the selector stands right in front of white space. *)
Theorem C2_parse_reads_plain_reference (m : scope_marker) (t : string)
    (category : option string) (ws sel : string) :
  no_space t = true ->
  plain_category category = true ->
  white_space ws = true ->
  forall_chars is_dot sel = true ->
  head_is is_space sel = false ->
  readable_parens t category sel = true ->
  parse_method (method_reference m t category ws sel)
  = Some {| mm_scope := scope_group m;
            mm_target := Some t;
            mm_category := option_map (fun c => "(" ++ c ++ ")") category;
            mm_selector := Some sel |}.
Proof.
  intros Ht Hc Hws Hdot Hhd Hpar. unfold parse_method.
  rewrite (method_reference_reads m t category ws sel Ht Hc Hws Hdot Hhd Hpar).
  destruct m, category; reflexivity.
Qed.

(** C2, on the example of the claim, an instance-method reference whose
    target is a hexadecimal address, and on a target with a cast and a
    subscript. *)
Lemma C2_witness :
  parse_method "-[0x10020 setFrame:]"
  = Some {| mm_scope := Some "-";
            mm_target := Some "0x10020";
            mm_category := None;
            mm_selector := Some "setFrame:" |}
  /\ parse_method "+[(id)views[0] setFrame:display:]"
     = Some {| mm_scope := Some "+";
               mm_target := Some "(id)views[0]";
               mm_category := None;
               mm_selector := Some "setFrame:display:" |}.
Proof.
  split.
  - exact (C2_parse_reads_plain_reference Minus "0x10020" None " " "setFrame:"
             eq_refl eq_refl eq_refl eq_refl eq_refl eq_refl).
  - exact (C2_parse_reads_plain_reference Plus "(id)views[0]" None " "
             "setFrame:display:"
             eq_refl eq_refl eq_refl eq_refl eq_refl eq_refl).
Defined.

(** C2 as stated fails: a target with nested brackets holds white space,
    and the lazy target group stops in front of the first white space. *)
Lemma C2_counterexample :
  parse_method (method_reference Minus "[Foo sharedInstance]" None " " "doThing:")
  = Some {| mm_scope := Some "-";
            mm_target := Some "[Foo";
            mm_category := None;
            mm_selector := Some "sharedInstance] doThing:" |}
  /\ parse_method (method_reference Minus "[Foo sharedInstance]" None " " "doThing:")
     <> Some {| mm_scope := Some "-";
                mm_target := Some "[Foo sharedInstance]";
                mm_category := None;
                mm_selector := Some "doThing:" |}.
Proof.
  split; [reflexivity|]. intros H. vm_compute in H. discriminate H.
Qed.

(** C3, as the code has it.  [wivar] has no test for zero: whatever
    integers the address, offset and size round trips read as, it asks
    the debugger for a watch of [size] bytes at [address + offset], and
    reports a failure only when the debugger's answer is one. *)
Theorem C3_watch_requested_unchecked (w : World) (object ivarName sa so ss : string)
    (address offset size : Z) :
  evaluateObjectExpression w object = Some sa -> int0 w sa = Some address ->
  evaluateExpression w (ivarOffsetCommand address ivarName) = Some so ->
  int0 w so = Some offset ->
  evaluateExpression w (ivarSizeCommand address ivarName) = Some ss ->
  int0 w ss = Some size ->
  wivar_run w [object; ivarName]
  = ([WatchAddress (address + offset) size false true;
      Print (let '(success, id, cstring) := watch_result w (address + offset) size in
             if success
             then "Remember to delete the watchpoint using: watchpoint delete " ++ format_Z id
             else "Could not create the watchpoint: " ++ cstring)],
     Ok tt).
Proof.
  intros Ha Hia Ho Hio Hs His.
  unfold wivar_run, py_int0. rewrite Ha, Hia. unfold bind at 1, ret. cbv beta iota.
  rewrite Ho, Hio. unfold bind at 1. cbv beta iota.
  rewrite Hs, His. unfold bind at 1. cbv beta iota.
  destruct (watch_result w (address + offset) size) as [[success id] cstring].
  destruct success; reflexivity.
Qed.

(** C3, on the scenario of the specification: object at [0x7000], offset
    16, size 16. *)
Lemma C3_witness :
  wivar_run ivar_world ["self.view"; "_frame"]
  = ([WatchAddress 28688 16 false true;
      Print "Remember to delete the watchpoint using: watchpoint delete 1"],
     Ok tt).
Proof.
  exact (C3_watch_requested_unchecked ivar_world "self.view" "_frame" "0x7000" "16" "16"
           28672 16 16 eq_refl eq_refl eq_refl eq_refl eq_refl eq_refl).
Defined.

(** C3 as stated fails: for an instance variable whose offset and size
    read as zero, a watch of zero bytes is requested all the same. *)
Lemma C3_counterexample :
  directives (trace (wivar_run ivar_world ["self.view"; "_nope"]))
  = [WatchAddress 28672 0 false true].
Proof. reflexivity. Qed.

(** C4 fails on the code.  The predicate [name MATCHES "\\d+"] holds two
    backslashes.  The escaping puts a backslash in front of each quote and
    leaves the two backslashes as they are, so one level of unescaping
    reads them as one: the text that arrives is not the text that was
    sent. *)
Theorem C4_backslash_not_escaped :
  let predicate := "name MATCHES " ++ DQ ++ "\\d+" ++ DQ in
  escape_predicate predicate = "name MATCHES " ++ BS ++ DQ ++ "\\d+" ++ BS ++ DQ
  /\ unescape (escape_predicate predicate) = Some ("name MATCHES " ++ DQ ++ "\d+" ++ DQ)
  /\ unescape (escape_predicate predicate) <> Some predicate.
Proof.
  cbv zeta. split; [reflexivity|]. split; [reflexivity|].
  intros H. vm_compute in H. discriminate H.
Qed.

(** C5, as the code has it.  For every query with the scope marker [+]
    whose target resolves to a class handle, the ascent starts at the
    metaclass ([object_getClass]) of the resolved class.  When an owner
    is found, the one breakpoint command carries a guard chosen by the
    target, not by the marker: if the target text does not evaluate to
    an object (it is taken for a class), the guard compares
    [object_getClass] of the self reference with that metaclass; if it
    evaluates to an object, the guard compares the self reference with
    the object's handle. *)
Theorem C5_class_method_guard (w : World) (expression : string) (rest : list string)
    (g : groups) (self cls : string) (n : Z) (fuel : nat) :
  re_match methodPattern expression = Some g ->
  group g "scope" = Some "+" ->
  functionPreambleExpressionForSelf w = Some self ->
  self <> "" ->
  let t := format_opt (group g "target") in
  let sel := format_opt (group g "selector") in
  let object := evaluateObjectExpression w ("(" ++ t ++ ")") in
  let isClass := negb (truthy object) in
  let target :=
    if isClass then evaluateObjectExpression w ("[" ++ t ++ " class]") else object in
  evaluateObjectExpression w ("[" ++ format_opt target ++ " class]") = Some cls ->
  cls <> "" ->
  int0 w cls = Some n ->
  n <> 0 ->
  let meta := object_getClass w cls in
  let guard :=
    if isClass
    then "(void*)object_getClass(" ++ self ++ ") == " ++ meta
    else "(void*)" ++ self ++ " == " ++ format_opt target in
  resolveTarget w t true = ([], Ok (Some (isClass, target, meta)))
  /\ (forall owner,
        ascend fuel w sel false meta = Ok (true, owner) ->
        let name := class_getName w owner in
        directives (trace (bmessage_run fuel w (expression :: rest)))
        = [HandleCommand
             (if truthy (group g "category")
              then "breakpoint set --skip-prologue false --fullname " ++ DQ
                   ++ ("+" ++ "[" ++ name ++ format_opt (group g "category")
                       ++ " " ++ sel ++ "]")
                   ++ DQ ++ " --condition " ++ DQ ++ guard ++ DQ
              else "breakpoint set --skip-prologue false --func-regex " ++ DQ
                   ++ ("+" ++ "\[" ++ name ++ "(\(.+\))? " ++ sel ++ "\]")
                   ++ DQ ++ " --condition " ++ DQ ++ guard ++ DQ)]).
Proof.
  intros Hm Hscope Hself Hne t sel object isClass target Hcls Hcne Hint Hn meta guard.
  assert (Hres : resolveTarget w t true = ([], Ok (Some (isClass, target, meta)))).
  { unfold resolveTarget. cbv zeta. fold object. fold isClass. fold target.
    rewrite Hcls.
    assert (Ht : truthy (Some cls) = true) by (destruct cls; [congruence | reflexivity]).
    rewrite Ht. cbn [negb]. cbv iota.
    unfold py_int0. rewrite Hint. unfold bind at 1, ret. cbv beta iota.
    apply Z.eqb_neq in Hn. now rewrite Hn. }
  split; [exact Hres|].
  intros owner Hasc name.
  assert (Hplus : scope_is_plus (group g "scope") = true) by now rewrite Hscope.
  assert (Htself : truthy (functionPreambleExpressionForSelf w) = true).
  { rewrite Hself. destruct self; [congruence | reflexivity]. }
  assert (Hres' : resolveTarget w (format_opt (group g "target"))
                    (scope_is_plus (group g "scope"))
                  = ([], Ok (Some (isClass, target, meta))))
    by (rewrite Hplus; exact Hres).
  rewrite (bmessage_run_resolved fuel w expression rest g isClass target meta true owner
             Hm Htself Hres' Hasc).
  rewrite Hplus, Hself. unfold breakpointCommand, breakpointCondition.
  subst guard name sel.
  destruct (truthy (group g "category")); destruct isClass; reflexivity.
Qed.

(** C5, on the scenario of the specification: [BaseView] alone
    implements the class method, the query names [MyView], whose
    metaclass is at [0x2100]. *)
Lemma C5_witness :
  directives (trace (bmessage_run 5 view_world ["+[MyView awesomeClassMethod]"]))
  = [HandleCommand
       ("breakpoint set --skip-prologue false --func-regex " ++ DQ
        ++ "+\[BaseView(\(.+\))? awesomeClassMethod\]"
        ++ DQ ++ " --condition " ++ DQ
        ++ "(void*)object_getClass((id)$rdi) == 0x2100" ++ DQ)].
Proof.
  refine (proj2 (C5_class_method_guard view_world "+[MyView awesomeClassMethod]" []
                   [("selector", "awesomeClassMethod"); ("target", "MyView"); ("scope", "+")]
                   "(id)$rdi" "0x2000" 8192 5 eq_refl eq_refl eq_refl _ eq_refl _ eq_refl _)
            "0x1100" eq_refl);
    discriminate.
Defined.

(** C5 as stated fails: with the marker [+] and a target that is an
    object, the guard compares the self reference with the object, not
    its class with the metaclass at [0x2100]. *)
Lemma C5_counterexample :
  directives (trace (bmessage_run 5 view_world ["+[0x7000 awesomeClassMethod]"]))
  = [HandleCommand
       ("breakpoint set --skip-prologue false --func-regex " ++ DQ
        ++ "+\[BaseView(\(.+\))? awesomeClassMethod\]"
        ++ DQ ++ " --condition " ++ DQ ++ "(void*)(id)$rdi == 0x7000" ++ DQ)]
  /\ directives (trace (bmessage_run 5 view_world ["+[0x7000 awesomeClassMethod]"]))
     <> [HandleCommand
           ("breakpoint set --skip-prologue false --func-regex " ++ DQ
            ++ "+\[BaseView(\(.+\))? awesomeClassMethod\]"
            ++ DQ ++ " --condition " ++ DQ
            ++ "(void*)object_getClass((id)$rdi) == 0x2100" ++ DQ)].
Proof.
  split; [reflexivity|]. intros H. vm_compute in H. discriminate H.
Qed.

(** C6.  Every breakpoint command that [bmessage] hands to the debugger
    comes from arguments whose first one parsed, whose target resolved
    and for whose selector the ascent found an owner, and is, letter for
    letter, the full-name form (when a category was given) or the
    name-regex form (when none was), each closed by a condition that is
    not empty and compares the self reference with the resolved target:
    [object_getClass] of self with the resolved class for a class target,
    self with the object's handle for an instance target.  Every
    breakpoint command that [binside] hands to the debugger is the
    address form for its first argument and holds no condition. *)
Theorem C6_guard_invariant (fuel : nat) (w : World) (arguments : list string) (cmd : string) :
  (In (HandleCommand cmd) (trace (bmessage_run fuel w arguments)) ->
   exists expression rest g isClass obj cls owner,
     arguments = expression :: rest
     /\ re_match methodPattern expression = Some g
     /\ truthy (functionPreambleExpressionForSelf w) = true
     /\ resolveTarget w (format_opt (group g "target")) (scope_is_plus (group g "scope"))
        = ([], Ok (Some (isClass, obj, cls)))
     /\ ascend fuel w (format_opt (group g "selector")) false cls = Ok (true, owner)
     /\ let self := format_opt (functionPreambleExpressionForSelf w) in
        let sign := if scope_is_plus (group g "scope") then "+" else "-" in
        let name := class_getName w owner in
        let sel := format_opt (group g "selector") in
        let guard :=
          if isClass
          then "(void*)object_getClass(" ++ self ++ ") == " ++ cls
          else "(void*)" ++ self ++ " == " ++ format_opt obj in
        guard <> ""
        /\ cmd = (if truthy (group g "category")
                  then "breakpoint set --skip-prologue false --fullname " ++ DQ
                       ++ (sign ++ "[" ++ name ++ format_opt (group g "category")
                           ++ " " ++ sel ++ "]")
                       ++ DQ ++ " --condition " ++ DQ ++ guard ++ DQ
                  else "breakpoint set --skip-prologue false --func-regex " ++ DQ
                       ++ (sign ++ "\[" ++ name ++ "(\(.+\))? " ++ sel ++ "\]")
                       ++ DQ ++ " --condition " ++ DQ ++ guard ++ DQ))
  /\ (In (HandleCommand cmd) (trace (binside_run w arguments)) ->
      exists a0 rest n,
        arguments = a0 :: rest
        /\ int0 w a0 = Some n
        /\ cmd = "breakpoint set --address " ++ format_Z (ResolveFileAddress w n)
        /\ contains "--condition" cmd = false).
Proof.
  split.
  - intros Hin.
    destruct (bmessage_command_inv fuel w arguments cmd Hin)
      as (expression & rest & g & isClass & obj & root & k
          & Hargs & Hm & Hself & Hres & Hasc & _ & Hcmd).
    exists expression, rest, g, isClass, obj, root, k.
    repeat (split; [assumption|]).
    cbv zeta. split; [destruct isClass; discriminate|].
    rewrite Hcmd. unfold breakpointCommand, breakpointCondition.
    destruct (truthy (group g "category")); destruct isClass; reflexivity.
  - unfold binside_run.
    destruct arguments as [|a0 rest]; [intros []|].
    unfold py_int0. destruct (int0 w a0) as [n|] eqn:Hn; [|intros []].
    intros [H|[]]. injection H as <-.
    exists a0, rest, n.
    split; [reflexivity|]. split; [exact Hn|]. split; [reflexivity|].
    apply address_command_unguarded.
Qed.

(** C6, on an instance target without category and on an address. *)
Lemma C6_witness :
  (exists expression rest g isClass obj cls owner,
     ["-[0x7000 doThing:]"] = expression :: rest
     /\ re_match methodPattern expression = Some g
     /\ truthy (functionPreambleExpressionForSelf abc_world) = true
     /\ resolveTarget abc_world (format_opt (group g "target"))
          (scope_is_plus (group g "scope"))
        = ([], Ok (Some (isClass, obj, cls)))
     /\ ascend 5 abc_world (format_opt (group g "selector")) false cls = Ok (true, owner)
     /\ let self := format_opt (functionPreambleExpressionForSelf abc_world) in
        let sign := if scope_is_plus (group g "scope") then "+" else "-" in
        let name := class_getName abc_world owner in
        let sel := format_opt (group g "selector") in
        let guard :=
          if isClass
          then "(void*)object_getClass(" ++ self ++ ") == " ++ cls
          else "(void*)" ++ self ++ " == " ++ format_opt obj in
        guard <> ""
        /\ "breakpoint set --skip-prologue false --func-regex " ++ DQ
           ++ "-\[A(\(.+\))? doThing:\]" ++ DQ ++ " --condition " ++ DQ
           ++ "(void*)(id)$rdi == 0x7000" ++ DQ
           = (if truthy (group g "category")
              then "breakpoint set --skip-prologue false --fullname " ++ DQ
                   ++ (sign ++ "[" ++ name ++ format_opt (group g "category")
                       ++ " " ++ sel ++ "]")
                   ++ DQ ++ " --condition " ++ DQ ++ guard ++ DQ
              else "breakpoint set --skip-prologue false --func-regex " ++ DQ
                   ++ (sign ++ "\[" ++ name ++ "(\(.+\))? " ++ sel ++ "\]")
                   ++ DQ ++ " --condition " ++ DQ ++ guard ++ DQ))
  /\ (exists a0 rest n,
        ["0x1234"] = a0 :: rest
        /\ int0 ivar_world a0 = Some n
        /\ "breakpoint set --address 4294971956"
           = "breakpoint set --address " ++ format_Z (ResolveFileAddress ivar_world n)
        /\ contains "--condition" "breakpoint set --address 4294971956" = false).
Proof.
  split.
  - apply (proj1 (C6_guard_invariant 5 abc_world ["-[0x7000 doThing:]"]
                    ("breakpoint set --skip-prologue false --func-regex " ++ DQ
                     ++ "-\[A(\(.+\))? doThing:\]" ++ DQ ++ " --condition " ++ DQ
                     ++ "(void*)(id)$rdi == 0x7000" ++ DQ))).
    right. left. reflexivity.
  - apply (proj2 (C6_guard_invariant 0 ivar_world ["0x1234"]
                    "breakpoint set --address 4294971956")).
    left. reflexivity.
Defined.

(** C7.  When no class of the target's hierarchy implements the selector
    (the classes between the class the ascent starts at and the null
    handle that closes the chain all fail the test), the command prints
    that there is no implementation and hands nothing to the debugger. *)
Theorem C7_no_owner_no_directive (w : World) (expression : string) (rest : list string)
    (g : groups) (isClass : bool) (obj : option string) (root : string) (d fuel : nat) :
  re_match methodPattern expression = Some g ->
  truthy (functionPreambleExpressionForSelf w) = true ->
  resolveTarget w (format_opt (group g "target")) (scope_is_plus (group g "scope"))
  = ([], Ok (Some (isClass, obj, root))) ->
  (forall i, (i < d)%nat ->
     live_handle w (nth_superclass w i root)
     /\ classItselfImplementsSelector w (nth_superclass w i root)
          (format_opt (group g "selector")) = false) ->
  null_handle w (nth_superclass w d root) ->
  (d <= fuel)%nat ->
  bmessage_run fuel w (expression :: rest)
  = ([Print (noImplementation (format_opt (group g "selector")))], Ok tt)
  /\ directives (trace (bmessage_run fuel w (expression :: rest))) = [].
Proof.
  intros Hm Hself Hres Hchain Hnull Hfuel.
  pose proof (ascend_no_owner w _ d root fuel Hchain Hnull Hfuel) as Hasc.
  pose proof (bmessage_run_resolved fuel w expression rest g isClass obj root false _
                Hm Hself Hres Hasc) as Hrun.
  cbv zeta in Hrun. cbv iota in Hrun.
  rewrite Hrun. split; reflexivity.
Qed.

(** C7, on the simulated hierarchy [A <- B <- C] and a selector that no
    class implements. *)
Lemma C7_witness :
  bmessage_run 3 abc_world ["-[C nothing]"]
  = ([Print (noImplementation "nothing")], Ok tt)
  /\ directives (trace (bmessage_run 3 abc_world ["-[C nothing]"])) = [].
Proof.
  refine (C7_no_owner_no_directive abc_world "-[C nothing]" []
            [("selector", "nothing"); ("target", "C"); ("scope", "-")]
            true (Some "0x3000") "0x3000" 3 3 _ _ _ _ _ _).
  - reflexivity.
  - reflexivity.
  - reflexivity.
  - intros i Hi.
    destruct i as [|[|[|i]]].
    + split; [exists 12288; split; reflexivity | reflexivity].
    + split; [exists 8192; split; reflexivity | reflexivity].
    + split; [exists 4096; split; reflexivity | reflexivity].
    + exfalso. apply (Nat.lt_irrefl 3).
      apply (Nat.le_lt_trans _ (S (S (S i)))); [|exact Hi].
      do 3 apply le_n_S. apply Nat.le_0_l.
  - exists 0. split; [reflexivity | discriminate].
  - apply le_n.
Defined.

(** C8.  On a superclass chain that reaches a null handle after [d]
    steps, the ascent ends within [d] iterations, at a class of the
    chain: with an owner found there, or at a null handle.  Each
    iteration at a live handle stops with that class as owner or goes on
    from its superclass, and the loop is left at once at a null
    handle. *)
Theorem C8_ascent_terminates (w : World) (sel root : string) (d : nat) :
  (forall i, (i <= d)%nat -> int0 w (nth_superclass w i root) <> None) ->
  null_handle w (nth_superclass w d root) ->
  (exists (found : bool) (i : nat),
     (i <= d)%nat
     /\ (forall fuel, (d <= fuel)%nat ->
           ascend fuel w sel false root = Ok (found, nth_superclass w i root))
     /\ (if found
         then live_handle w (nth_superclass w i root)
              /\ classItselfImplementsSelector w (nth_superclass w i root) sel = true
         else null_handle w (nth_superclass w i root)))
  /\ (forall fuel k, live_handle w k ->
        ascend (S fuel) w sel false k
        = if classItselfImplementsSelector w k sel
          then Ok (true, k)
          else ascend fuel w sel false (class_getSuperclass w k))
  /\ (forall fuel k, null_handle w k -> ascend fuel w sel false k = Ok (false, k)).
Proof.
  intros Hread Hnull. split; [|split].
  - destruct (ascend_within_depth w sel d root Hread Hnull) as [found [i [Hi [Hrun Hres]]]].
    exists found, i. split; [exact Hi|]. split; [|exact Hres].
    intros fuel Hfuel. now apply (ascend_more_fuel w sel d fuel).
  - intros fuel k Hk. now apply ascend_step.
  - intros fuel k Hk. now apply ascend_null.
Qed.

(** C8, on the simulated hierarchy [A <- B <- C], whose depth from [C]
    is three. *)
Lemma C8_witness :
  exists (found : bool) (i : nat),
    (i <= 3)%nat
    /\ (forall fuel, (3 <= fuel)%nat ->
          ascend fuel abc_world "nothing" false "0x3000"
          = Ok (found, nth_superclass abc_world i "0x3000"))
    /\ (if found
        then live_handle abc_world (nth_superclass abc_world i "0x3000")
             /\ classItselfImplementsSelector abc_world
                  (nth_superclass abc_world i "0x3000") "nothing" = true
        else null_handle abc_world (nth_superclass abc_world i "0x3000")).
Proof.
  refine (proj1 (C8_ascent_terminates abc_world "nothing" "0x3000" 3 _ _)).
  - intros i Hi. destruct i as [|[|[|[|i]]]]; try discriminate.
    exfalso. apply (Nat.lt_irrefl 3).
    apply (Nat.lt_le_trans _ (S (S (S (S i))))); [|exact Hi].
    do 3 apply le_n_S. apply le_n_S. apply Nat.le_0_l.
  - exists 0. split; [reflexivity | discriminate].
Defined.

(** C9, as the code has it.  When the load of the library fails (it was
    not loaded, the file is there, [dlopen] answers null and the module is
    still missing), the [dlopen] call is the only expression evaluated
    for its effect, one line is printed and the scan request is not
    sent.  The line depends on how the debugger hands back the error
    number.  As an integer [n]: the code-signing message when [n] is 50;
    else the loader's error when [dlerror] is not null; else, when [n] is
    not zero, the text of [strerror] when that is not null and the bare
    number when it is; else the unknown-failure message.  As text (or
    nothing), the comparisons with 50 and 0 never hold: the loader's
    error when [dlerror] is not null, else the text of [strerror] when
    that is not null, else the bare value. *)
Theorem C9_load_failure_diagnostic (w : World) (arguments : list string) :
  module_Chisel w = false ->
  os_path_exists w (chiselLibraryPath w) = true ->
  sb_unsigned (evaluateExpressionValue w
                 ("(void*)dlopen(" ++ DQ ++ chiselLibraryPath w ++ DQ ++ ", 2)")) = 0 ->
  module_Chisel_after_dlopen w = false ->
  let errno := sb_value (evaluateExpressionValue w "*(int*)__error()") in
  let dlerror := evaluateExpressionValue w "(char*)dlerror()" in
  let strerror :=
    evaluateExpressionValue w ("(char*)strerror(" ++ format_pyval errno ++ ")") in
  exists line,
    findinstances_run w arguments
    = ([Evaluate ("(void*)dlopen(" ++ DQ ++ chiselLibraryPath w ++ DQ ++ ", 2)");
        Print line],
       Ok tt)
    /\ (forall n, errno = PyInt n ->
          line = if n =? 50
                 then "Error loading Chisel: Code signing failure; Must re-run codesign"
                 else if negb (sb_unsigned dlerror =? 0)
                 then "Error loading Chisel: " ++ sb_summary dlerror
                 else if negb (n =? 0)
                 then if negb (sb_unsigned strerror =? 0)
                      then "Error loading Chisel: " ++ sb_summary strerror
                      else "Error loading Chisel (errno " ++ format_Z n ++ ")"
                 else "Unknown error loading Chisel")
    /\ ((forall n, errno <> PyInt n) ->
        line = if negb (sb_unsigned dlerror =? 0)
               then "Error loading Chisel: " ++ sb_summary dlerror
               else if negb (sb_unsigned strerror =? 0)
               then "Error loading Chisel: " ++ sb_summary strerror
               else "Error loading Chisel (errno " ++ format_pyval errno ++ ")").
Proof.
  intros Hmod Hexists Hdl Hafter errno dlerror strerror.
  exists (loadFailureMessage w). split; [|split].
  - unfold findinstances_run, loadChiselIfNecessary, dlopenCall.
    rewrite Hmod, Hexists, Hdl, Hafter. reflexivity.
  - intros n Hn. unfold loadFailureMessage, strerrorCall.
    fold errno. fold dlerror. fold strerror. rewrite Hn. reflexivity.
  - intros Hn. unfold loadFailureMessage, strerrorCall.
    fold errno. fold dlerror. fold strerror.
    destruct errno as [m| text |]; [|reflexivity|reflexivity].
    now destruct (Hn m).
Qed.

(** C9, on a failed load with the integer 50 as error number and a
    loader error at the same time: the code-signing message wins. *)
Lemma C9_witness :
  exists line,
    findinstances_run codesign_world ["UIView"]
    = ([Evaluate ("(void*)dlopen(" ++ DQ ++ chiselLibraryPath codesign_world ++ DQ
                  ++ ", 2)");
        Print line],
       Ok tt)
    /\ line = "Error loading Chisel: Code signing failure; Must re-run codesign".
Proof.
  destruct (C9_load_failure_diagnostic codesign_world ["UIView"]
              eq_refl eq_refl eq_refl eq_refl)
    as [line [Hrun [Hint _]]].
  exists line. split; [exact Hrun | exact (Hint 50 eq_refl)].
Defined.

(** C9 as stated fails: with the integer 2 as error number, no loader
    error and a null answer from [strerror], no decoded text is reported;
    the line holds the bare number. *)
Lemma C9_counterexample :
  findinstances_run
    (load_world (failed_load (PyInt 2) (mkSBValue 0 PyNone "") (mkSBValue 0 PyNone "")))
    ["UIView"]
  = ([Evaluate ("(void*)dlopen(" ++ DQ
                ++ "/opt/chisel/libexec/commands/../../lib/Chisel.framework/Chisel"
                ++ DQ ++ ", 2)");
      Print "Error loading Chisel (errno 2)"],
     Ok tt).
Proof. reflexivity. Qed.

(** C10.  With [CHISEL_LIBRARY_PATH] set to [p]: the function answers [p]
    when [p] exists (and is not the empty string), and answers something
    other than the default only then; when [p] does not exist it answers
    the default, the directory of the source file joined with [..], [..],
    [lib], [Chisel.framework], [Chisel], and nothing tells of the bad
    override: if the default is missing too, the one line printed names
    the default path. *)
Theorem C10_library_path_override (w : World) (p : string) :
  os_getenv w "CHISEL_LIBRARY_PATH" = Some p ->
  (p <> "" -> os_path_exists w p = true -> chiselLibraryPath w = p)
  /\ (chiselLibraryPath w <> defaultLibraryPath w ->
      os_path_exists w p = true /\ chiselLibraryPath w = p)
  /\ (os_path_exists w p = false ->
      chiselLibraryPath w = defaultLibraryPath w
      /\ defaultLibraryPath w
         = os_path_join (os_path_dirname (module_file w))
             [".."; ".."; "lib"; "Chisel.framework"; "Chisel"]
      /\ (module_Chisel w = false ->
          os_path_exists w (defaultLibraryPath w) = false ->
          loadChiselIfNecessary w
          = ([Print ("Chisel library missing: " ++ defaultLibraryPath w)], Ok false))).
Proof.
  intros Henv. unfold chiselLibraryPath. rewrite Henv. cbn [format_opt].
  split; [|split].
  - intros Hne Hex. rewrite Hex. destruct p; [congruence | reflexivity].
  - intros Hdiff. destruct (truthy (Some p) && os_path_exists w p)%bool eqn:Hc.
    + apply andb_prop in Hc as [_ Hex]. now split.
    + congruence.
  - intros Hex. rewrite Hex, andb_false_r.
    split; [reflexivity|]. split; [reflexivity|].
    intros Hmod Hdef. unfold loadChiselIfNecessary, chiselLibraryPath.
    rewrite Hmod, Henv. cbn [format_opt]. rewrite Hex, andb_false_r, Hdef. reflexivity.
Qed.

(** C10, with the variable set to a path that does not exist. *)
Lemma C10_witness :
  chiselLibraryPath override_world
  = "/opt/chisel/libexec/commands/../../lib/Chisel.framework/Chisel"
  /\ loadChiselIfNecessary override_world
     = ([Print "Chisel library missing: /opt/chisel/libexec/commands/../../lib/Chisel.framework/Chisel"],
        Ok false).
Proof.
  destruct (C10_library_path_override override_world "/tmp/Chisel" eq_refl)
    as [_ [_ H]].
  destruct (H eq_refl) as [Hpath [_ Hload]].
  split; [exact Hpath | exact (Hload eq_refl eq_refl)].
Defined.

(* ================================================================== *)
(** * Further properties *)

(** ** The matcher: what a successful repetition consumed *)

Lemma rep_greedy_here (p : ascii -> bool) (s : string) (g : groups) (k : cont) :
  k s g <> None -> rep_greedy p s g k <> None.
Proof.
  intros Hk. destruct s as [|c s]; simpl; [exact Hk|].
  destruct (p c); [|exact Hk].
  destruct (rep_greedy p s g k); [discriminate | exact Hk].
Qed.

Lemma rep_greedy_none_inv (p : ascii -> bool) (u v : string) (g : groups) (k : cont) :
  rep_greedy p (u ++ v) g k = None -> forall_chars p u = true -> k v g = None.
Proof.
  intros Hnone Hu. destruct (k v g) as [r|] eqn:Hk; [|reflexivity].
  exfalso.
  destruct (rep_greedy p v g k) as [r'|] eqn:Hv.
  - now rewrite (rep_greedy_skip p u v g k r' Hu Hv) in Hnone.
  - apply (rep_greedy_here p v g k); [now rewrite Hk | exact Hv].
Qed.

(** What a greedy repetition consumed: a run of matching characters that
    is the longest from behind which the rest succeeds. *)
Lemma rep_greedy_inv (p : ascii -> bool) (s : string) (g : groups) (k : cont) res :
  rep_greedy p s g k = Some res ->
  exists u s',
    s = u ++ s' /\ forall_chars p u = true /\ k s' g = Some res
    /\ (forall u2 s2, s' = u2 ++ s2 -> u2 <> "" -> forall_chars p u2 = true ->
          k s2 g = None).
Proof.
  induction s as [|c s IH]; simpl; intros H.
  - exists "", "". repeat split; try assumption.
    intros u2 s2 Heq Hne. destruct u2; [congruence | discriminate].
  - destruct (p c) eqn:Hc.
    + destruct (rep_greedy p s g k) as [r|] eqn:Hr.
      * injection H as <-. destruct (IH eq_refl) as (u & s' & -> & Hu & Hk & Hmax).
        exists (String c u), s'. simpl. rewrite Hc, Hu. now repeat split.
      * exists "", (String c s). repeat split; try assumption.
        intros u2 s2 Heq Hne Hu2. destruct u2 as [|c2 u2]; [congruence|].
        simpl in Heq. injection Heq as -> ->.
        simpl in Hu2. apply andb_prop in Hu2 as [_ Hu2].
        now apply (rep_greedy_none_inv p u2 s2 g k).
    + exists "", (String c s). repeat split; try assumption.
      intros u2 s2 Heq Hne Hu2. destruct u2 as [|c2 u2]; [congruence|].
      simpl in Heq. injection Heq as -> ->.
      simpl in Hu2. rewrite Hc in Hu2. discriminate.
Qed.

Lemma rep_lazy_inv (p : ascii -> bool) (s : string) (g : groups) (k : cont) res :
  rep_lazy p s g k = Some res ->
  exists u s', s = u ++ s' /\ forall_chars p u = true /\ k s' g = Some res.
Proof.
  induction s as [|c s IH]; simpl; intros H.
  - destruct (k "" g) as [r|] eqn:Hk; [|discriminate].
    injection H as <-. exists "", "". now repeat split.
  - destruct (k (String c s) g) as [r|] eqn:Hk.
    + injection H as <-. exists "", (String c s). now repeat split.
    + destruct (p c) eqn:Hc; [|discriminate].
      destruct (IH H) as (u & s' & -> & Hu & Hk').
      exists (String c u), s'. simpl. now rewrite Hc, Hu.
Qed.

Lemma lit_inv (c : ascii) (s : string) (g : groups) (k : cont) res :
  re_run (Lit c) s g k = Some res ->
  exists s', s = String c s' /\ k s' g = Some res.
Proof.
  destruct s as [|c' s']; simpl; [discriminate|].
  destruct (Ascii.eqb_spec c c') as [<-|]; [|discriminate].
  intros H. now exists s'.
Qed.

(** ** [bmessage]: every match of the method pattern, taken apart *)

Lemma selector_tail_inv (s : string) (g : groups) (k : cont) res :
  re_run selector_tail s g k = Some res ->
  exists sel s',
    s = sel ++ "]" ++ s'
    /\ forall_chars is_dot sel = true
    /\ k s' (set_group "selector" sel g) = Some res
    /\ (forall r1 r2, s' = r1 ++ "]" ++ r2 -> forall_chars is_dot r1 = true ->
          k r2 (set_group "selector" (sel ++ "]" ++ r1) g) = None).
Proof.
  unfold selector_tail. simpl re_run. intros H.
  apply rep_greedy_inv in H as (u & s1 & -> & Hu & Hk & Hmax).
  destruct s1 as [|c s2]; [discriminate|].
  destruct (Ascii.eqb_spec "]" c) as [<-|]; [|discriminate].
  rewrite consumed_append in Hk.
  exists u, s2. repeat split; try assumption.
  intros r1 r2 -> Hr1.
  specialize (Hmax ("]" ++ r1) ("]" ++ r2) eq_refl ltac:(discriminate)).
  cbn [append forall_chars] in Hmax.
  change (is_dot "]") with true in Hmax. cbn [andb] in Hmax.
  specialize (Hmax Hr1). cbv beta iota in Hmax.
  change (Ascii.eqb "]" "]") with true in Hmax. cbv iota in Hmax.
  replace (u ++ String "]" (r1 ++ String "]" r2))
    with ((u ++ "]" ++ r1) ++ String "]" r2) in Hmax
    by (now rewrite !append_assoc).
  now rewrite consumed_append in Hmax.
Qed.

Lemma space_tail_inv (s : string) (g : groups) (k : cont) res :
  re_run space_tail s g k = Some res ->
  exists ws sel s',
    s = ws ++ sel ++ "]" ++ s'
    /\ white_space ws = true
    /\ forall_chars is_dot sel = true
    /\ k s' (set_group "selector" sel g) = Some res
    /\ (forall r1 r2, s' = r1 ++ "]" ++ r2 -> forall_chars is_dot r1 = true ->
          k r2 (set_group "selector" (sel ++ "]" ++ r1) g) = None).
Proof.
  unfold space_tail.
  change (re_run (Cat (Rep is_space true Greedy) selector_tail) s g k)
    with (match s with
          | String c' s' =>
              if is_space c'
              then rep_greedy is_space s' g (fun s1 g1 => re_run selector_tail s1 g1 k)
              else None
          | EmptyString => None
          end).
  destruct s as [|c s]; [discriminate|].
  destruct (is_space c) eqn:Hc; [|discriminate]. intros H.
  apply rep_greedy_inv in H as (u & s1 & -> & Hu & Hk & _).
  apply selector_tail_inv in Hk as (sel & s' & -> & Hsel & Hk & Hlast).
  exists (String c u), sel, s'. repeat split; try assumption.
  unfold white_space. simpl. now rewrite Hc, Hu.
Qed.

Lemma category_group_inv (s : string) (g : groups) (k : cont) res :
  re_run (Grp "category" (Cat (Lit "(") (Cat (Rep is_dot true Greedy) (Lit ")")))) s g k
  = Some res ->
  exists c s',
    s = "(" ++ c ++ ")" ++ s'
    /\ plain_category (Some c) = true
    /\ k s' (set_group "category" ("(" ++ c ++ ")") g) = Some res.
Proof.
  change (re_run (Grp "category" (Cat (Lit "(") (Cat (Rep is_dot true Greedy) (Lit ")"))))
            s g k)
    with (re_run (Lit "(") s g
            (fun s1 g1 =>
               match s1 with
               | String c' s2 =>
                   if is_dot c'
                   then rep_greedy is_dot s2 g1
                          (fun s3 g3 =>
                             re_run (Lit ")") s3 g3
                               (fun s4 g4 =>
                                  k s4 (set_group "category" (consumed s s4) g4)))
                   else None
               | EmptyString => None
               end)).
  intros H.
  apply lit_inv in H as (s1 & -> & H).
  destruct s1 as [|c0 s2]; [discriminate|].
  destruct (is_dot c0) eqn:Hc0; [|discriminate].
  apply rep_greedy_inv in H as (u & s3 & -> & Hu & H & _).
  apply lit_inv in H as (s4 & -> & H).
  replace (String "(" (String c0 (u ++ String ")" s4)))
    with (("(" ++ String c0 u ++ ")") ++ s4) in H
    by (simpl; now rewrite append_assoc).
  rewrite consumed_append in H.
  exists (String c0 u), s4. split; [|split].
  - reflexivity.
  - unfold plain_category. simpl. now rewrite Hc0, Hu.
  - exact H.
Qed.

Lemma category_tail_inv (s : string) (g : groups) (k : cont) res :
  re_run category_tail s g k = Some res ->
  exists category ws sel s',
    s = category_text category ++ ws ++ sel ++ "]" ++ s'
    /\ plain_category category = true
    /\ white_space ws = true
    /\ forall_chars is_dot sel = true
    /\ k s' (set_group "selector" sel (with_category category g)) = Some res
    /\ (forall r1 r2, s' = r1 ++ "]" ++ r2 -> forall_chars is_dot r1 = true ->
          k r2 (set_group "selector" (sel ++ "]" ++ r1) (with_category category g))
          = None).
Proof.
  unfold category_tail, category_item.
  change (re_run (Cat (Opt (Grp "category"
                         (Cat (Lit "(") (Cat (Rep is_dot true Greedy) (Lit ")")))))
                    space_tail) s g k)
    with (match
            re_run (Grp "category" (Cat (Lit "(") (Cat (Rep is_dot true Greedy) (Lit ")"))))
              s g (fun s1 g1 => re_run space_tail s1 g1 k)
          with
          | Some r => Some r
          | None => re_run space_tail s g k
          end).
  destruct (re_run (Grp "category" _) s g _) as [r|] eqn:Hcat; intros H.
  - injection H as <-.
    apply category_group_inv in Hcat as (c & s1 & -> & Hc & H).
    apply space_tail_inv in H as (ws & sel & s' & -> & Hws & Hsel & H & Hlast).
    exists (Some c), ws, sel, s'. repeat split; try assumption.
    simpl. now rewrite !append_assoc.
  - apply space_tail_inv in H as (ws & sel & s' & -> & Hws & Hsel & H & Hlast).
    exists None, ws, sel, s'. now repeat split.
Qed.

Lemma target_tail_inv (s : string) (g : groups) (k : cont) res :
  re_run target_tail s g k = Some res ->
  exists t category ws sel s',
    s = t ++ category_text category ++ ws ++ sel ++ "]" ++ s'
    /\ forall_chars is_dot t = true
    /\ plain_category category = true
    /\ white_space ws = true
    /\ forall_chars is_dot sel = true
    /\ k s' (set_group "selector" sel (with_category category (set_group "target" t g)))
       = Some res
    /\ (forall r1 r2, s' = r1 ++ "]" ++ r2 -> forall_chars is_dot r1 = true ->
          k r2 (set_group "selector" (sel ++ "]" ++ r1)
                  (with_category category (set_group "target" t g))) = None).
Proof.
  rewrite target_tail_unfold. intros H.
  apply rep_lazy_inv in H as (t & s1 & -> & Ht & H).
  rewrite consumed_append in H.
  apply category_tail_inv in H
    as (category & ws & sel & s' & -> & Hc & Hws & Hsel & H & Hlast).
  exists t, category, ws, sel, s'. now repeat split.
Qed.

Lemma plus_minus_inv (c : ascii) :
  is_plus_minus c = true -> c = "-"%char \/ c = "+"%char.
Proof.
  unfold is_plus_minus. intros H. apply orb_prop in H as [H|H];
    apply Ascii.eqb_eq in H; [now left | now right].
Qed.

(** Every match of the method pattern: the text begins with a method
    reference whose parts are the groups. *)
Lemma method_match_inv (s : string) (res : groups) :
  re_match methodPattern s = Some res ->
  exists m t category ws sel rest,
    s = method_reference m t category ws sel ++ rest
    /\ forall_chars is_dot t = true
    /\ plain_category category = true
    /\ white_space ws = true
    /\ forall_chars is_dot sel = true
    /\ last_bracket rest
    /\ res = set_group "selector" sel
               (with_category category
                  (set_group "target" t
                     (match scope_group m with
                      | Some sc => set_group "scope" sc []
                      | None => []
                      end))).
Proof.
  unfold re_match. rewrite methodPattern_unfold.
  assert (Hbracket : forall s0 g0,
            re_run (Cat (Lit "[") target_tail) s0 g0 (fun _ g => Some g) = Some res ->
            exists t category ws sel rest,
              s0 = "[" ++ t ++ category_text category ++ ws ++ sel ++ "]" ++ rest
              /\ forall_chars is_dot t = true
              /\ plain_category category = true
              /\ white_space ws = true
              /\ forall_chars is_dot sel = true
              /\ last_bracket rest
              /\ res = set_group "selector" sel
                         (with_category category (set_group "target" t g0))).
  { intros s0 g0 H.
    change (re_run (Cat (Lit "[") target_tail) s0 g0 (fun _ g => Some g))
      with (re_run (Lit "[") s0 g0 (fun s1 g1 => re_run target_tail s1 g1 (fun _ g => Some g)))
      in H.
    apply lit_inv in H as (s1 & -> & H).
    apply target_tail_inv in H
      as (t & category & ws & sel & rest & -> & Ht & Hc & Hws & Hsel & H & Hlast).
    injection H as <-.
    exists t, category, ws, sel, rest. repeat split; try assumption.
    intros r1 r2 Heq. destruct (forall_chars is_dot r1) eqn:Hr1; [|reflexivity].
    discriminate (Hlast r1 r2 Heq Hr1). }
  assert (Hfinish : forall m s0,
            (exists t category ws sel rest,
               s0 = "[" ++ t ++ category_text category ++ ws ++ sel ++ "]" ++ rest
               /\ forall_chars is_dot t = true
               /\ plain_category category = true
               /\ white_space ws = true
               /\ forall_chars is_dot sel = true
               /\ last_bracket rest
               /\ res = set_group "selector" sel
                          (with_category category
                             (set_group "target" t
                                (match scope_group m with
                                 | Some sc => set_group "scope" sc []
                                 | None => []
                                 end)))) ->
            exists m' t category ws sel rest,
              scope_text m ++ s0 = method_reference m' t category ws sel ++ rest
              /\ forall_chars is_dot t = true
              /\ plain_category category = true
              /\ white_space ws = true
              /\ forall_chars is_dot sel = true
              /\ last_bracket rest
              /\ res = set_group "selector" sel
                         (with_category category
                            (set_group "target" t
                               (match scope_group m' with
                                | Some sc => set_group "scope" sc []
                                | None => []
                                end)))).
  { intros m s0 (t & category & ws & sel & rest & -> & Ht & Hc & Hws & Hsel & Hl & Hres).
    exists m, t, category, ws, sel, rest. repeat split; try assumption.
    unfold method_reference. now rewrite !append_assoc. }
  destruct s as [|c s1].
  - simpl. discriminate.
  - rewrite cls_unfold. destruct (is_plus_minus c) eqn:Hc.
    + cbv beta.
      destruct (re_run (Cat (Lit "[") target_tail) s1
                  (set_group "scope" (consumed (String c s1) s1) []) _) as [r|] eqn:Hsome.
      * intros H. injection H as ->.
        change (String c s1) with (String c "" ++ s1) in Hsome.
        rewrite consumed_append in Hsome.
        apply Hbracket in Hsome.
        destruct (plus_minus_inv c Hc) as [-> | ->].
        -- exact (Hfinish Minus s1 Hsome).
        -- exact (Hfinish Plus s1 Hsome).
      * intros H. apply Hbracket in H as (t & category & ws & sel & rest & Heq & _).
        injection Heq as -> _. discriminate Hc.
    + intros H. apply Hbracket in H. exact (Hfinish NoMarker (String c s1) H).
Qed.

(** X1.  Whenever the parse step succeeds, the expression begins with a
    method reference (scope marker, bracket, target, category, white
    space, selector, bracket) whose parts are exactly the four fields
    read; target, category and selector hold no newline, the category is
    not empty, and whatever follows the closing bracket is ignored.  The
    closing bracket is the last one of its line: the selector runs up to
    it over any bracket before. *)
Theorem X1_parse_sound (s : string) (mm : MethodMatch) :
  parse_method s = Some mm ->
  exists m t category ws sel rest,
    s = method_reference m t category ws sel ++ rest
    /\ mm = {| mm_scope := scope_group m;
               mm_target := Some t;
               mm_category := option_map (fun c => "(" ++ c ++ ")") category;
               mm_selector := Some sel |}
    /\ forall_chars is_dot t = true
    /\ plain_category category = true
    /\ white_space ws = true
    /\ forall_chars is_dot sel = true
    /\ last_bracket rest.
Proof.
  unfold parse_method. destruct (re_match methodPattern s) as [g|] eqn:Hm; [|discriminate].
  intros H. injection H as <-.
  apply method_match_inv in Hm
    as (m & t & category & ws & sel & rest & -> & Ht & Hc & Hws & Hsel & Hlast & ->).
  exists m, t, category, ws, sel, rest. repeat split; try assumption.
  destruct m, category; reflexivity.
Qed.

(** X1, on a reference with a nested target and text behind the closing
    bracket. *)
Lemma X1_witness :
  exists m t category ws sel rest,
    "+[[Foo shared] do:it:] # note"
    = method_reference m t category ws sel ++ rest
    /\ {| mm_scope := Some "+"; mm_target := Some "[Foo"; mm_category := None;
          mm_selector := Some "shared] do:it:" |}
       = {| mm_scope := scope_group m;
            mm_target := Some t;
            mm_category := option_map (fun c => "(" ++ c ++ ")") category;
            mm_selector := Some sel |}
    /\ forall_chars is_dot t = true
    /\ plain_category category = true
    /\ white_space ws = true
    /\ forall_chars is_dot sel = true
    /\ last_bracket rest.
Proof.
  exact (X1_parse_sound "+[[Foo shared] do:it:] # note" _ eq_refl).
Defined.

Lemma has_char_append (p : ascii -> bool) (u v : string) :
  has_char p (u ++ v) = (has_char p u || has_char p v)%bool.
Proof. unfold has_char. now rewrite forall_chars_append, negb_andb. Qed.

Lemma white_space_has_space (ws : string) :
  white_space ws = true -> has_char is_space ws = true.
Proof.
  unfold white_space, has_char. intros H. apply andb_prop in H as [Hne Hws].
  destruct ws as [|c ws]; [discriminate Hne|].
  simpl in *. apply andb_prop in Hws as [Hc _]. now rewrite Hc.
Qed.

(** A text that lacks the opening, white space or a closing bracket is
    not matched. *)
Lemma shapeless_no_match (s : string) :
  reference_shape s = false -> re_match methodPattern s = None.
Proof.
  intros Hshape. destruct (re_match methodPattern s) as [g|] eqn:Hm; [|reflexivity].
  apply method_match_inv in Hm
    as (m & t & category & ws & sel & rest & -> & _ & _ & Hws & _ & _ & _).
  exfalso. revert Hshape. unfold reference_shape, method_reference.
  assert (Hopen : opens_reference
                    ((scope_text m ++ "[" ++ t ++ category_text category ++ ws
                      ++ sel ++ "]") ++ rest) = true) by now destruct m.
  rewrite Hopen. rewrite !has_char_append.
  rewrite (white_space_has_space ws Hws).
  change (has_char (fun c => Ascii.eqb c "]") "]") with true.
  rewrite !orb_true_r. discriminate.
Qed.

(** X2.  An expression that does not begin with an opening bracket (a
    sign may stand in front), or holds no white space, or holds no
    closing bracket, fails to parse: [bmessage] prints the failure line
    and does nothing else. *)
Theorem X2_shapeless_expression_rejected (fuel : nat) (w : World)
    (expression : string) (rest : list string) :
  reference_shape expression = false ->
  parse_method expression = None
  /\ bmessage_run fuel w (expression :: rest)
     = ([Print "Failed to parse expression. Do you even Objective-C?!"], Ok tt).
Proof.
  intros H. apply shapeless_no_match in H.
  unfold parse_method, bmessage_run. now rewrite H.
Qed.

(** X2, on a reference without white space. *)
Lemma X2_witness :
  parse_method "-[MyView]" = None
  /\ bmessage_run 5 abc_world ["-[MyView]"]
     = ([Print "Failed to parse expression. Do you even Objective-C?!"], Ok tt).
Proof.
  exact (X2_shapeless_expression_rejected 5 abc_world "-[MyView]" [] eq_refl).
Defined.

(** ** [bmessage]: which class the ascent settles on *)

Lemma ascend_first_owner (w : World) (sel : string) (i : nat) :
  forall (root : string) (fuel : nat),
  (forall j, (j < i)%nat ->
     live_handle w (nth_superclass w j root)
     /\ classItselfImplementsSelector w (nth_superclass w j root) sel = false) ->
  live_handle w (nth_superclass w i root) ->
  classItselfImplementsSelector w (nth_superclass w i root) sel = true ->
  (i < fuel)%nat ->
  ascend fuel w sel false root = Ok (true, nth_superclass w i root).
Proof.
  induction i as [|i IH]; intros root fuel Hbelow Hlive Hown Hfuel.
  - destruct fuel as [|fuel]; [lia|]. simpl in Hlive, Hown.
    now rewrite (ascend_step fuel w sel root Hlive), Hown.
  - destruct fuel as [|fuel]; [lia|].
    destruct (Hbelow 0%nat ltac:(lia)) as [Hl0 Hno]. simpl in Hl0, Hno.
    rewrite (ascend_step fuel w sel root Hl0), Hno. simpl nth_superclass.
    apply IH; [| exact Hlive | exact Hown | lia].
    intros j Hj. exact (Hbelow (S j) ltac:(lia)).
Qed.

Lemma ascend_needs_fuel (w : World) (sel : string) (i : nat) :
  forall (root : string) (fuel : nat),
  (forall j, (j < i)%nat ->
     live_handle w (nth_superclass w j root)
     /\ classItselfImplementsSelector w (nth_superclass w j root) sel = false) ->
  live_handle w (nth_superclass w i root) ->
  (fuel <= i)%nat ->
  ascend fuel w sel false root = OutOfFuel.
Proof.
  induction i as [|i IH]; intros root fuel Hbelow Hlive Hfuel.
  - assert (fuel = 0%nat) as -> by lia.
    destruct Hlive as [n [Hn Hpos]]. simpl in Hn. simpl. rewrite Hn.
    apply Z.ltb_lt in Hpos. now rewrite Hpos.
  - destruct (Hbelow 0%nat ltac:(lia)) as [Hl0 Hno]. simpl in Hl0, Hno.
    destruct fuel as [|fuel].
    + destruct Hl0 as [n [Hn Hpos]]. simpl. rewrite Hn.
      apply Z.ltb_lt in Hpos. now rewrite Hpos.
    + rewrite (ascend_step fuel w sel root Hl0), Hno.
      apply IH; [| exact Hlive | lia].
      intros j Hj. exact (Hbelow (S j) ltac:(lia)).
Qed.

(** X3.  The ascent settles on the first class of the chain, counted from
    the class it starts at, that passes the own-implementation test: the
    classes below it failed the test, and what the classes above it
    implement plays no part.  When that class is [i] steps up, the loop
    body runs exactly [i + 1] times: [i] iterations do not suffice. *)
Theorem X3_ascent_nearest_owner (w : World) (sel root : string) (i : nat) :
  (forall j, (j < i)%nat ->
     live_handle w (nth_superclass w j root)
     /\ classItselfImplementsSelector w (nth_superclass w j root) sel = false) ->
  live_handle w (nth_superclass w i root) ->
  classItselfImplementsSelector w (nth_superclass w i root) sel = true ->
  (forall fuel, (i < fuel)%nat ->
     ascend fuel w sel false root = Ok (true, nth_superclass w i root))
  /\ (forall fuel, (fuel <= i)%nat -> ascend fuel w sel false root = OutOfFuel).
Proof.
  intros Hbelow Hlive Hown. split; intros fuel Hfuel.
  - now apply ascend_first_owner.
  - now apply (ascend_needs_fuel w sel i).
Qed.

(** X3, where [A] and [C] both implement the selector: from [B] the
    owner is [A], one step up. *)
Lemma X3_witness :
  ascend 2 override_hierarchy_world "draw" false "0x2000" = Ok (true, "0x1000")
  /\ ascend 1 override_hierarchy_world "draw" false "0x2000" = OutOfFuel.
Proof.
  destruct (X3_ascent_nearest_owner override_hierarchy_world "draw" "0x2000" 1)
    as [Hok Hout].
  - intros j Hj. destruct j as [|j].
    + split; [exists 8192; split; reflexivity | reflexivity].
    + exfalso. apply (Nat.lt_irrefl 1).
      apply (Nat.le_lt_trans _ (S j)); [apply le_n_S, Nat.le_0_l | exact Hj].
  - exists 4096. split; reflexivity.
  - reflexivity.
  - split; [apply (Hok 2%nat), le_n | apply (Hout 1%nat), le_n].
Defined.

Lemma ascend_endless (w : World) (sel : string) (fuel : nat) :
  forall root : string,
  (forall i, live_handle w (nth_superclass w i root)
             /\ classItselfImplementsSelector w (nth_superclass w i root) sel = false) ->
  ascend fuel w sel false root = OutOfFuel.
Proof.
  induction fuel as [|fuel IH]; intros root Hall.
  - destruct (Hall 0%nat) as [[n [Hn Hpos]] _]. simpl in Hn. simpl. rewrite Hn.
    apply Z.ltb_lt in Hpos. now rewrite Hpos.
  - destruct (Hall 0%nat) as [Hlive Hno]. simpl in Hlive, Hno.
    rewrite (ascend_step fuel w sel root Hlive), Hno.
    apply IH. intros i. exact (Hall (S i)).
Qed.

(** X4.  On a superclass chain that never reaches a null handle and on
    which no class passes the test, the loop is not left: whatever the
    number of iterations allowed, the ascent is still running, and
    [bmessage] has printed nothing and handed nothing to the debugger. *)
Theorem X4_endless_chain_never_returns (w : World) (expression : string)
    (rest : list string) (g : groups) (isClass : bool) (obj : option string)
    (root : string) (fuel : nat) :
  re_match methodPattern expression = Some g ->
  truthy (functionPreambleExpressionForSelf w) = true ->
  resolveTarget w (format_opt (group g "target")) (scope_is_plus (group g "scope"))
  = ([], Ok (Some (isClass, obj, root))) ->
  (forall i,
     live_handle w (nth_superclass w i root)
     /\ classItselfImplementsSelector w (nth_superclass w i root)
          (format_opt (group g "selector")) = false) ->
  ascend fuel w (format_opt (group g "selector")) false root = OutOfFuel
  /\ bmessage_run fuel w (expression :: rest) = ([], OutOfFuel).
Proof.
  intros Hm Hself Hres Hall.
  pose proof (ascend_endless w _ fuel root Hall) as Hasc.
  split; [exact Hasc|].
  unfold bmessage_run. rewrite Hm, Hself. simpl negb. cbv iota.
  rewrite Hres. unfold bind at 1. unfold lift. now rewrite Hasc.
Qed.

Lemma cyclic_world_chain (i : nat) :
  nth_superclass cyclic_world i "0x1000" = "0x1000".
Proof. induction i as [|i IH]; [reflexivity | exact IH]. Qed.

(** X4, on a class that is its own superclass. *)
Lemma X4_witness :
  ascend 1000 cyclic_world "draw" false "0x1000" = OutOfFuel
  /\ bmessage_run 1000 cyclic_world ["-[Loop draw]"] = ([], OutOfFuel).
Proof.
  refine (X4_endless_chain_never_returns cyclic_world "-[Loop draw]" []
            [("selector", "draw"); ("target", "Loop"); ("scope", "-")]
            true (Some "0x1000") "0x1000" 1000 _ _ _ _).
  - reflexivity.
  - reflexivity.
  - reflexivity.
  - intros i. rewrite cyclic_world_chain.
    split; [exists 4096; split; reflexivity | reflexivity].
Defined.

(** ** [bmessage]: what a run does and does not do *)

(** X5.  A run of [bmessage] hands at most one command to the debugger
    and never asks for a watchpoint or evaluates an expression for its
    effect: its trace is empty, or one printed line, or one printed line
    followed by one breakpoint command, after which it returns. *)
Theorem X5_bmessage_trace_shape (fuel : nat) (w : World) (arguments : list string) :
  trace (bmessage_run fuel w arguments) = []
  \/ (exists line, trace (bmessage_run fuel w arguments) = [Print line])
  \/ (exists line cmd,
        bmessage_run fuel w arguments = ([Print line; HandleCommand cmd], Ok tt)).
Proof.
  destruct arguments as [|expression rest]; [now left|].
  destruct (re_match methodPattern expression) as [g|] eqn:Hm.
  2:{ right; left. unfold bmessage_run. rewrite Hm. eexists. reflexivity. }
  destruct (truthy (functionPreambleExpressionForSelf w)) eqn:Hself.
  2:{ left. unfold bmessage_run. now rewrite Hm, Hself. }
  destruct (resolveTarget_cases w (format_opt (group g "target"))
              (scope_is_plus (group g "scope")))
    as [[line Hres] | [[e Hres] | [[[isClass obj] root] Hres]]].
  - right; left. exists line.
    unfold bmessage_run. rewrite Hm, Hself. simpl negb. cbv iota. now rewrite Hres.
  - left. unfold bmessage_run. rewrite Hm, Hself. simpl negb. cbv iota. now rewrite Hres.
  - destruct (ascend fuel w (format_opt (group g "selector")) false root)
      as [[found k]| e |] eqn:Hasc.
    + rewrite (bmessage_run_resolved fuel w expression rest g isClass obj root found k
                 Hm Hself Hres Hasc).
      destruct found; [right; right | right; left]; repeat eexists.
    + left. unfold bmessage_run. rewrite Hm, Hself. simpl negb. cbv iota.
      rewrite Hres. unfold bind at 1. unfold lift. now rewrite Hasc.
    + left. unfold bmessage_run. rewrite Hm, Hself. simpl negb. cbv iota.
      rewrite Hres. unfold bind at 1. unfold lift. now rewrite Hasc.
Qed.

(** X6.  On an architecture for which there is no expression for [self],
    an expression that parses makes [bmessage] raise [NameError] (the
    message it is about to print names [arch], which is defined nowhere):
    nothing is printed and nothing reaches the debugger. *)
Theorem X6_unsupported_architecture_raises (fuel : nat) (w : World)
    (expression : string) (rest : list string) (mm : MethodMatch) :
  parse_method expression = Some mm ->
  truthy (functionPreambleExpressionForSelf w) = false ->
  bmessage_run fuel w (expression :: rest) = ([], Raised NameError).
Proof.
  unfold parse_method, bmessage_run.
  destruct (re_match methodPattern expression) as [g|]; [|discriminate].
  intros _ Hself. now rewrite Hself.
Qed.

(** X6, on a world without an expression for [self]. *)
Lemma X6_witness :
  bmessage_run 5 unsupported_world ["-[C doThing:]"] = ([], Raised NameError).
Proof.
  exact (X6_unsupported_architecture_raises 5 unsupported_world "-[C doThing:]" [] _
           eq_refl eq_refl).
Defined.

Lemma bmessage_run_unresolved (fuel : nat) (w : World) (expression : string)
    (rest : list string) (g : groups) (line : string) :
  re_match methodPattern expression = Some g ->
  truthy (functionPreambleExpressionForSelf w) = true ->
  resolveTarget w (format_opt (group g "target")) (scope_is_plus (group g "scope"))
  = ([Print line], Ok None) ->
  bmessage_run fuel w (expression :: rest) = ([Print line], Ok tt).
Proof.
  intros Hm Hself Hres.
  unfold bmessage_run. rewrite Hm, Hself. simpl negb. cbv iota. now rewrite Hres.
Qed.

(** X7.  When no class comes out of the target text, [bmessage] prints
    the line that names the text and stops, nothing reaching the
    debugger.  That is so when the text evaluates neither as an object
    nor as a class and the class of the text [None], which the command
    asks for next, is not found either; and when the text evaluates to
    an object whose class reads as zero. *)
Theorem X7_class_not_found (fuel : nat) (w : World) (expression : string)
    (rest : list string) (g : groups) :
  re_match methodPattern expression = Some g ->
  truthy (functionPreambleExpressionForSelf w) = true ->
  let t := format_opt (group g "target") in
  (evaluateObjectExpression w ("(" ++ t ++ ")") = None ->
   evaluateObjectExpression w ("[" ++ t ++ " class]") = None ->
   truthy (evaluateObjectExpression w "[None class]") = false ->
   bmessage_run fuel w (expression :: rest) = ([Print (couldntFindClass t)], Ok tt))
  /\ (forall obj cls,
        evaluateObjectExpression w ("(" ++ t ++ ")") = Some obj ->
        obj <> "" ->
        evaluateObjectExpression w ("[" ++ obj ++ " class]") = Some cls ->
        int0 w cls = Some 0 ->
        bmessage_run fuel w (expression :: rest) = ([Print (couldntFindClass t)], Ok tt)).
Proof.
  intros Hm Hself t. split.
  - intros Hobj Hcls Hnone.
    apply (bmessage_run_unresolved fuel w expression rest g _ Hm Hself).
    fold t. unfold resolveTarget. cbv zeta. rewrite Hobj. cbn [truthy negb]. cbv iota.
    rewrite Hcls. cbn [format_opt].
    change ("[" ++ "None" ++ " class]") with "[None class]". now rewrite Hnone.
  - intros obj cls Hobj Hne Hcls Hzero.
    apply (bmessage_run_unresolved fuel w expression rest g _ Hm Hself).
    fold t. unfold resolveTarget. cbv zeta. rewrite Hobj.
    assert (Ht : truthy (Some obj) = true) by (destruct obj; [congruence | reflexivity]).
    rewrite Ht. cbn [negb format_opt]. cbv iota. rewrite Hcls.
    destruct (truthy (Some cls)); cbn [negb]; cbv iota; [|reflexivity].
    unfold py_int0. rewrite Hzero. reflexivity.
Qed.

(** X7, on a name that the process does not know and on the null
    object. *)
Lemma X7_witness :
  bmessage_run 5 abc_world ["-[Nope doThing:]"]
  = ([Print (couldntFindClass "Nope")], Ok tt)
  /\ bmessage_run 5 nil_world ["-[nil doThing:]"]
     = ([Print (couldntFindClass "nil")], Ok tt).
Proof.
  split.
  - exact (proj1 (X7_class_not_found 5 abc_world "-[Nope doThing:]" []
                    [("selector", "doThing:"); ("target", "Nope"); ("scope", "-")]
                    eq_refl eq_refl)
             eq_refl eq_refl eq_refl).
  - refine (proj2 (X7_class_not_found 5 nil_world "-[nil doThing:]" []
                     [("selector", "doThing:"); ("target", "nil"); ("scope", "-")]
                     eq_refl eq_refl)
              "0x0" "0x0" eq_refl _ eq_refl eq_refl).
    discriminate.
Defined.

(** X8.  Parsing and building compose.  For a method reference with
    plain parts whose target resolves and whose selector has an owner,
    [bmessage] announces and sets one breakpoint.  With a category it is
    set by full name, the name made of the sign, the owner's class name,
    the category in parentheses, ONE space and the selector; without a
    category it is set by a name pattern that accepts any category.  The
    sign is minus when the reference has no marker, and the white space
    typed between target and selector leaves no trace. *)
Theorem X8_plain_reference_end_to_end (fuel : nat) (w : World) (m : scope_marker)
    (t : string) (category : option string) (ws sel : string) (rest : list string)
    (self : string) (isClass : bool) (obj : option string) (root owner : string) :
  plain_target t = true ->
  plain_category category = true ->
  white_space ws = true ->
  plain_selector sel = true ->
  functionPreambleExpressionForSelf w = Some self ->
  self <> "" ->
  resolveTarget w t (marker_is_plus m) = ([], Ok (Some (isClass, obj, root))) ->
  ascend fuel w sel false root = Ok (true, owner) ->
  let sign := marker_character m in
  let name := class_getName w owner in
  let condition := breakpointCondition isClass self obj root in
  let fullName := sign ++ "[" ++ name ++ category_text category ++ " " ++ sel ++ "]" in
  bmessage_run fuel w (method_reference m t category ws sel :: rest)
  = ([Print ("Setting a breakpoint at " ++ fullName ++ " with condition " ++ condition);
      HandleCommand
        (match category with
         | Some _ => fullnameCommand fullName condition
         | None =>
             funcRegexCommand
               (sign ++ "\[" ++ name ++ "(\(.+\))? " ++ sel ++ "\]") condition
         end)],
     Ok tt).
Proof.
  intros Ht Hc Hws Hsel Hself Hne Hres Hasc sign name condition fullName.
  pose proof (parse_method_reads m t category ws sel Ht Hc Hws Hsel) as Hm.
  set (g := set_group "selector" sel
              (with_category category
                 (set_group "target" t
                    (match scope_group m with
                     | Some s => set_group "scope" s []
                     | None => []
                     end)))) in Hm.
  assert (Hgsel : group g "selector" = Some sel) by reflexivity.
  assert (Hgt : group g "target" = Some t) by (destruct category; reflexivity).
  assert (Hgc : group g "category" = option_map (fun c => "(" ++ c ++ ")") category)
    by (destruct category, m; reflexivity).
  assert (Hgs : scope_is_plus (group g "scope") = marker_is_plus m)
    by (destruct category, m; reflexivity).
  assert (Htself : truthy (functionPreambleExpressionForSelf w) = true).
  { rewrite Hself. destruct self; [congruence | reflexivity]. }
  assert (Hres' : resolveTarget w (format_opt (group g "target"))
                    (scope_is_plus (group g "scope"))
                  = ([], Ok (Some (isClass, obj, root))))
    by (rewrite Hgt, Hgs; exact Hres).
  assert (Hasc' : ascend fuel w (format_opt (group g "selector")) false root
                  = Ok (true, owner))
    by (rewrite Hgsel; exact Hasc).
  rewrite (bmessage_run_resolved fuel w _ rest g isClass obj root true owner
             Hm Htself Hres' Hasc').
  rewrite Hgsel, Hgc, Hgs, Hself. subst sign name condition fullName.
  destruct category as [c|]; destruct m; reflexivity.
Qed.

(** X8, on a reference without marker, with a category and with tabs
    and spaces between target and selector. *)
Lemma X8_witness :
  bmessage_run 5 abc_world [method_reference NoMarker "C" (Some "Drawing")
                              (String "009" "  ") "doThing:"]
  = ([Print ("Setting a breakpoint at -[A(Drawing) doThing:] with condition "
             ++ "(void*)object_getClass((id)$rdi) == 0x3000");
      HandleCommand
        (fullnameCommand "-[A(Drawing) doThing:]"
           "(void*)object_getClass((id)$rdi) == 0x3000")],
     Ok tt).
Proof.
  exact (X8_plain_reference_end_to_end 5 abc_world NoMarker "C" (Some "Drawing")
           (String "009" "  ") "doThing:" [] "(id)$rdi" true (Some "0x3000")
           "0x3000" "0x1000"
           eq_refl eq_refl eq_refl eq_refl eq_refl
           (fun H => match H with eq_refl => I end)
           eq_refl eq_refl).
Defined.

Lemma resolveTarget_object (w : World) (t obj cls : string) (n : Z) (plus : bool) :
  evaluateObjectExpression w ("(" ++ t ++ ")") = Some obj ->
  obj <> "" ->
  evaluateObjectExpression w ("[" ++ obj ++ " class]") = Some cls ->
  cls <> "" ->
  int0 w cls = Some n ->
  n <> 0 ->
  resolveTarget w t plus
  = ([], Ok (Some (false, Some obj, if plus then object_getClass w cls else cls))).
Proof.
  intros Hobj Hne Hcls Hcne Hint Hn.
  unfold resolveTarget. cbv zeta. rewrite Hobj.
  assert (Ht : truthy (Some obj) = true) by (destruct obj; [congruence | reflexivity]).
  rewrite Ht. cbn [negb format_opt]. cbv iota. rewrite Hcls.
  assert (Htc : truthy (Some cls) = true) by (destruct cls; [congruence | reflexivity]).
  rewrite Htc. cbn [negb format_opt]. cbv iota.
  unfold py_int0. rewrite Hint. unfold bind at 1, ret. cbv beta iota.
  apply Z.eqb_neq in Hn. now rewrite Hn.
Qed.

(** X9.  When the target text evaluates to an object, the text is never
    tried as a class name: the ascent starts at the object's class (at
    its metaclass under the marker [+]), and the breakpoint that is set
    is guarded by the comparison of [self] with the object's handle,
    whatever the marker. *)
Theorem X9_object_target_guard (fuel : nat) (w : World) (expression : string)
    (rest : list string) (g : groups) (self obj cls owner : string) (n : Z) :
  re_match methodPattern expression = Some g ->
  functionPreambleExpressionForSelf w = Some self ->
  self <> "" ->
  evaluateObjectExpression w ("(" ++ format_opt (group g "target") ++ ")") = Some obj ->
  obj <> "" ->
  evaluateObjectExpression w ("[" ++ obj ++ " class]") = Some cls ->
  cls <> "" ->
  int0 w cls = Some n ->
  n <> 0 ->
  let plus := scope_is_plus (group g "scope") in
  let root := if plus then object_getClass w cls else cls in
  ascend fuel w (format_opt (group g "selector")) false root = Ok (true, owner) ->
  resolveTarget w (format_opt (group g "target")) plus
  = ([], Ok (Some (false, Some obj, root)))
  /\ exists name pattern,
       directives (trace (bmessage_run fuel w (expression :: rest)))
       = [HandleCommand
            (breakpointCommand (group g "category") name pattern
               ("(void*)" ++ self ++ " == " ++ obj))].
Proof.
  intros Hm Hself Hne Hobj Hone Hcls Hcne Hint Hn plus root Hasc.
  pose proof (resolveTarget_object w _ obj cls n plus Hobj Hone Hcls Hcne Hint Hn) as Hres.
  split; [exact Hres|].
  assert (Htself : truthy (functionPreambleExpressionForSelf w) = true).
  { rewrite Hself. destruct self; [congruence | reflexivity]. }
  rewrite (bmessage_run_resolved fuel w expression rest g false (Some obj) root true owner
             Hm Htself Hres Hasc).
  rewrite Hself. eexists. eexists. reflexivity.
Qed.

(** X9, on an instance of [C] at [0x7000] and an instance-method query. *)
Lemma X9_witness :
  resolveTarget abc_world "0x7000" false = ([], Ok (Some (false, Some "0x7000", "0x3000")))
  /\ exists name pattern,
       directives (trace (bmessage_run 5 abc_world ["-[0x7000 doThing:]"]))
       = [HandleCommand
            (breakpointCommand None name pattern "(void*)(id)$rdi == 0x7000")].
Proof.
  refine (X9_object_target_guard 5 abc_world "-[0x7000 doThing:]" []
            [("selector", "doThing:"); ("target", "0x7000"); ("scope", "-")]
            "(id)$rdi" "0x7000" "0x3000" "0x1000" 12288
            eq_refl eq_refl _ eq_refl _ eq_refl _ eq_refl _ eq_refl);
    discriminate.
Defined.

(* ================================================================== *)
(** ** [wivar]: when a watch is requested *)

(** X10.  [wivar] asks for a watchpoint only when it was given exactly
    two arguments and the three round trips (object address, offset,
    size) all read as integers; the watch then starts at address plus
    offset, spans the size read and is a write watch, not a read watch.
    In every other case the command raises before anything is printed or
    requested. *)
Theorem X10_wivar_watch_inversion (w : World) (arguments : list string) :
  (exists object ivarName address offset size,
     arguments = [object; ivarName]
     /\ py_int0 w (evaluateObjectExpression w object) = ([], Ok address)
     /\ py_int0 w (evaluateExpression w (ivarOffsetCommand address ivarName))
        = ([], Ok offset)
     /\ py_int0 w (evaluateExpression w (ivarSizeCommand address ivarName))
        = ([], Ok size)
     /\ exists line,
          wivar_run w arguments
          = ([WatchAddress (address + offset) size false true; Print line], Ok tt))
  \/ (exists e, wivar_run w arguments = ([], Raised e)).
Proof.
  assert (Hint : forall x, (exists n, py_int0 w x = ([], Ok n))
                           \/ (exists e, py_int0 w x = ([], Raised e))).
  { intros [s|]; unfold py_int0; [|right; now eexists].
    destruct (int0 w s); [left | right]; now eexists. }
  destruct arguments as [|object [|ivarName [|extra more]]];
    try (right; now eexists).
  destruct (Hint (evaluateObjectExpression w object)) as [[address Ha]|[e Ha]].
  2:{ right. exists e. unfold wivar_run. now rewrite Ha. }
  destruct (Hint (evaluateExpression w (ivarOffsetCommand address ivarName)))
    as [[offset Ho]|[e Ho]].
  2:{ right. exists e. unfold wivar_run. rewrite Ha. unfold bind at 1. cbv beta iota.
      now rewrite Ho. }
  destruct (Hint (evaluateExpression w (ivarSizeCommand address ivarName)))
    as [[size Hs]|[e Hs]].
  2:{ right. exists e. unfold wivar_run. rewrite Ha. unfold bind at 1. cbv beta iota.
      rewrite Ho. unfold bind at 1. cbv beta iota. now rewrite Hs. }
  left. exists object, ivarName, address, offset, size.
  repeat split; try assumption.
  unfold wivar_run. rewrite Ha. unfold bind at 1. cbv beta iota.
  rewrite Ho. unfold bind at 1. cbv beta iota.
  rewrite Hs. unfold bind at 1. cbv beta iota.
  destruct (watch_result w (address + offset) size) as [[success id] cstring].
  destruct success; eexists; reflexivity.
Qed.

(* ================================================================== *)
(** ** [binside]: the address in the command *)

Lemma read_Z_format_Z (n : Z) : read_Z (format_Z n) = Some n.
Proof.
  unfold read_Z, format_Z.
  rewrite NilZero.isi.
  - simpl. now rewrite DecimalZ.of_to.
  - destruct n; simpl; try discriminate.
    intros H. injection H as H. now apply DecimalPos.Unsigned.to_uint_nonnil in H.
  - destruct n; simpl; try discriminate.
    intros H. injection H as H. now apply DecimalPos.Unsigned.to_uint_nonnil in H.
Qed.

(** X11.  [binside] reads its first argument alone: without arguments it
    raises [IndexError], on a first argument that does not read as an
    integer it raises [ValueError], in both cases before anything reaches
    the debugger; else it hands over exactly one command, which names the
    slid address in decimal text that reads back as that very address,
    so that two runs give the same command only for the same slid
    address. *)
Theorem X11_binside_address (w : World) :
  binside_run w [] = ([], Raised IndexError)
  /\ (forall a rest, int0 w a = None -> binside_run w (a :: rest) = ([], Raised ValueError))
  /\ (forall a rest n, int0 w a = Some n ->
        binside_run w (a :: rest)
        = ([HandleCommand ("breakpoint set --address " ++ format_Z (ResolveFileAddress w n))],
           Ok tt)
        /\ read_Z (format_Z (ResolveFileAddress w n)) = Some (ResolveFileAddress w n))
  /\ (forall a b n m, int0 w a = Some n -> int0 w b = Some m ->
        binside_run w [a] = binside_run w [b] ->
        ResolveFileAddress w n = ResolveFileAddress w m).
Proof.
  split; [reflexivity|]. split; [|split].
  - intros a rest Ha. unfold binside_run, py_int0. now rewrite Ha.
  - intros a rest n Ha. split; [|apply read_Z_format_Z].
    unfold binside_run, py_int0. now rewrite Ha.
  - intros a b n m Ha Hb. unfold binside_run, py_int0. rewrite Ha, Hb.
    unfold bind, ret, emit. cbv beta iota. intros H.
    injection H as H.
    assert (Hread : read_Z (format_Z (ResolveFileAddress w n))
                    = read_Z (format_Z (ResolveFileAddress w m))) by now rewrite H.
    rewrite !read_Z_format_Z in Hread. now injection Hread.
Qed.

Lemma X11_witness :
  binside_run ivar_world ["0x1234"; "ignored"]
  = ([HandleCommand "breakpoint set --address 4294971956"], Ok tt)
  /\ read_Z "4294971956" = Some 4294971956.
Proof.
  exact (proj1 (proj2 (proj2 (X11_binside_address ivar_world)))
           "0x1234" ["ignored"] 4660 eq_refl).
Defined.

(* ================================================================== *)
(** ** [findinstances]: when the escaping round-trips *)

Lemma no_backslash_iff (s : string) :
  has_char is_backslash s = false
  <-> forall_chars (fun c => negb (Ascii.eqb c backslash)) s = true.
Proof.
  unfold has_char, is_backslash. split; intros H.
  - now apply negb_false_iff in H.
  - now rewrite H.
Qed.

(** One level of unescaping of an escaped text never yields more
    characters than the text had, and yields fewer when the text holds a
    backslash. *)
Lemma unescape_escape_length (n : nat) :
  forall x y : string,
  (String.length x <= n)%nat ->
  unescape (escape_predicate x) = Some y ->
  (String.length y <= String.length x)%nat
  /\ (has_char is_backslash x = true -> (String.length y < String.length x)%nat).
Proof.
  unfold escape_predicate, escape_class.
  induction n as [|n IH]; intros x y Hlen Hun.
  - destruct x; [|simpl in Hlen; lia]. simpl in Hun. injection Hun as <-.
    split; [apply le_n | discriminate].
  - destruct x as [|c x]; [simpl in Hun; injection Hun as <-; split;
                            [apply le_n | discriminate]|].
    simpl in Hlen.
    destruct (Ascii.eqb_spec c dquote) as [->|Hq].
    + (* a quote: escaped, read back as the quote *)
      cbn [re_sub_escape] in Hun. rewrite Ascii.eqb_refl in Hun.
      cbn [unescape] in Hun. rewrite Ascii.eqb_refl in Hun.
      change (Ascii.eqb dquote backslash) with false in Hun. cbn [orb] in Hun.
      rewrite Ascii.eqb_refl in Hun.
      destruct (unescape (re_sub_escape (fun c => Ascii.eqb c dquote) x)) as [y'|] eqn:Hy;
        [|discriminate].
      injection Hun as <-.
      destruct (IH x y' ltac:(lia) Hy) as [Hle Hlt].
      split; [simpl; lia|].
      unfold has_char. simpl. fold (has_char is_backslash x). intros Hb.
      specialize (Hlt Hb). simpl. lia.
    + apply Ascii.eqb_neq in Hq.
      cbn [re_sub_escape] in Hun. rewrite Hq in Hun.
      destruct (Ascii.eqb_spec c backslash) as [->|Hb].
      * (* a backslash: left as it is, it swallows what follows *)
        cbn [unescape] in Hun. rewrite Ascii.eqb_refl in Hun.
        destruct x as [|d x]; [discriminate Hun|].
        destruct (Ascii.eqb_spec d dquote) as [->|Hdq].
        -- cbn [re_sub_escape] in Hun. rewrite Ascii.eqb_refl in Hun.
           rewrite Ascii.eqb_refl in Hun. cbn [orb] in Hun.
           cbn [unescape] in Hun.
           change (Ascii.eqb dquote backslash) with false in Hun.
           rewrite Ascii.eqb_refl in Hun. discriminate Hun.
        -- apply Ascii.eqb_neq in Hdq.
           cbn [re_sub_escape] in Hun. rewrite Hdq in Hun. rewrite Hdq in Hun.
           rewrite orb_false_r in Hun.
           destruct (Ascii.eqb_spec d backslash) as [->|Hdb]; [|discriminate Hun].
           destruct (unescape (re_sub_escape (fun c => Ascii.eqb c dquote) x))
             as [y'|] eqn:Hy; [|discriminate].
           injection Hun as <-. simpl in Hlen.
           destruct (IH x y' ltac:(lia) Hy) as [Hle _].
           simpl. split; [lia | intros _; lia].
      * (* any other character: kept *)
        apply Ascii.eqb_neq in Hb.
        cbn [unescape] in Hun. rewrite Hb, Hq in Hun.
        destruct (unescape (re_sub_escape (fun c => Ascii.eqb c dquote) x)) as [y'|] eqn:Hy;
          [|discriminate].
        injection Hun as <-.
        destruct (IH x y' ltac:(lia) Hy) as [Hle Hlt].
        split; [simpl; lia|].
        unfold has_char, is_backslash. simpl. rewrite Hb. simpl.
        fold is_backslash. fold (has_char is_backslash x). intros Hbs.
        specialize (Hlt Hbs). simpl. lia.
Qed.

(** X12.  The escaping of the predicate is undone by one level of
    unescaping exactly for the texts without a backslash: quotes are
    protected and come back, while any text that holds a backslash
    arrives changed or is not read at all. *)
Theorem X12_escape_roundtrip_iff (predicate : string) :
  unescape (escape_predicate predicate) = Some predicate
  <-> has_char is_backslash predicate = false.
Proof.
  split.
  - intros H. destruct (has_char is_backslash predicate) eqn:Hb; [|reflexivity].
    destruct (unescape_escape_length (String.length predicate) predicate predicate
                (le_n _) H) as [_ Hlt].
    specialize (Hlt Hb). lia.
  - intros H. apply escape_roundtrip_without_backslash. now apply no_backslash_iff.
Qed.

(** X12, on a predicate with quotes and without backslash. *)
Lemma X12_witness :
  unescape (escape_predicate ("name == " ++ DQ ++ "Main View" ++ DQ))
  = Some ("name == " ++ DQ ++ "Main View" ++ DQ).
Proof.
  exact (proj2 (X12_escape_roundtrip_iff ("name == " ++ DQ ++ "Main View" ++ DQ)) eq_refl).
Defined.

(* ================================================================== *)
(** ** [findinstances]: the argument and the load *)

Lemma lstrip_head (s : string) : head_is is_space (lstrip s) = false.
Proof.
  induction s as [|c s IH]; [reflexivity|].
  simpl. destruct (is_space c) eqn:Hc; [exact IH | exact Hc].
Qed.

Lemma rstrip_head (c : ascii) (s : string) :
  is_space c = false -> exists r, rstrip (String c s) = String c r.
Proof.
  intros Hc. simpl. rewrite Hc. destruct (rstrip s); eexists; reflexivity.
Qed.

Lemma strip_head (s : string) : head_is is_space (strip s) = false.
Proof.
  unfold strip. pose proof (lstrip_head s) as H.
  destruct (lstrip s) as [|c s']; [reflexivity|].
  simpl in H. destruct (rstrip_head c s' H) as [r ->]. exact H.
Qed.

Lemma split_rejoin (s : string) :
  rejoin (fst (split_space_1 s)) (snd (split_space_1 s)) = s
  /\ has_char (fun c => Ascii.eqb c " ") (fst (split_space_1 s)) = false.
Proof.
  induction s as [|c s [IH1 IH2]]; [now split|].
  simpl. destruct (Ascii.eqb_spec c " ") as [->|Hc].
  - now split.
  - destruct (split_space_1 s) as [a b]. simpl in *. split.
    + destruct b; simpl in *; now rewrite IH1.
    + unfold has_char in *. simpl. apply Ascii.eqb_neq in Hc. now rewrite Hc.
Qed.

Lemma split_query_nonempty (s : string) :
  head_is is_space s = false -> s <> "" -> fst (split_space_1 s) <> "".
Proof.
  destruct s as [|c s]; [congruence|]. simpl. intros Hc _.
  destruct (Ascii.eqb_spec c " ") as [->|_]; [discriminate Hc|].
  destruct (split_space_1 s). discriminate.
Qed.

Lemma load_succeeds_run (w : World) :
  load_succeeds w = true -> loadChiselIfNecessary w = (load_trace w, Ok true).
Proof.
  unfold load_succeeds, loadChiselIfNecessary, load_trace.
  destruct (module_Chisel w); [reflexivity|]. cbn [orb].
  intros H. apply andb_prop in H as [Hex Hdl]. rewrite Hex, Hdl. reflexivity.
Qed.

(** X13.  Once the library is there (it was loaded already, in which case
    no [dlopen] is evaluated, or the [dlopen] just succeeded), the
    argument decides: no argument or a blank one gives the usage line;
    else exactly one scan request is forwarded, whose query is the text
    before the first space of the stripped argument, never empty and
    without space, and whose predicate is the stripped and escaped rest
    (empty when there is none); the two parts put together with one
    space give back the stripped argument. *)
Theorem X13_scan_forwarded (w : World) :
  load_succeeds w = true ->
  findinstances_run w [] = ((load_trace w ++ [Print usage])%list, Ok tt)
  /\ (forall a0 rest,
        strip a0 = "" ->
        findinstances_run w (a0 :: rest) = ((load_trace w ++ [Print usage])%list, Ok tt))
  /\ (forall a0 rest,
        strip a0 <> "" ->
        exists query more,
          rejoin query more = strip a0
          /\ query <> ""
          /\ has_char (fun c => Ascii.eqb c " ") query = false
          /\ findinstances_run w (a0 :: rest)
             = ((load_trace w
                 ++ [Evaluate (printInstancesCall query (scan_predicate more))])%list,
                Ok tt)).
Proof.
  intros Hload. apply load_succeeds_run in Hload.
  split; [|split].
  - unfold findinstances_run. now rewrite Hload.
  - intros a0 rest Hblank. unfold findinstances_run. rewrite Hload.
    unfold bind at 1. cbn [negb]. cbv iota. now rewrite Hblank.
  - intros a0 rest Hne.
    destruct (split_rejoin (strip a0)) as [Hjoin Hspace].
    pose proof (split_query_nonempty (strip a0) (strip_head a0) Hne) as Hq.
    exists (fst (split_space_1 (strip a0))), (snd (split_space_1 (strip a0))).
    repeat split; try assumption.
    unfold findinstances_run. rewrite Hload.
    unfold bind at 1. cbn [negb]. cbv iota.
    apply String.eqb_neq in Hne. rewrite Hne.
    destruct (split_space_1 (strip a0)) as [q more]. destruct more; reflexivity.
Qed.

(** X13, after a [dlopen] that succeeded, on an argument with a quoted
    predicate and blanks around it. *)
Lemma X13_witness :
  exists query more,
    rejoin query more = strip ("  UIView name == " ++ DQ ++ "Main" ++ DQ ++ " ")
    /\ query <> ""
    /\ has_char (fun c => Ascii.eqb c " ") query = false
    /\ findinstances_run dlopen_world ["  UIView name == " ++ DQ ++ "Main" ++ DQ ++ " "]
       = ((load_trace dlopen_world
           ++ [Evaluate (printInstancesCall query (scan_predicate more))])%list,
          Ok tt).
Proof.
  refine (proj2 (proj2 (X13_scan_forwarded dlopen_world eq_refl))
            ("  UIView name == " ++ DQ ++ "Main" ++ DQ ++ " ") [] _).
  discriminate.
Defined.

(** X14.  When the library is not there and cannot be brought in, the
    arguments are never looked at: no usage line and no scan request,
    whatever they are.  If the library file does not exist, no [dlopen]
    is attempted and the one line printed names the path that was looked
    for; if it exists, the [dlopen] is the only expression evaluated for
    its effect and one line of diagnosis follows. *)
Theorem X14_failed_load_forwards_nothing (w : World) (arguments : list string) :
  load_succeeds w = false ->
  findinstances_run w arguments
  = if os_path_exists w (chiselLibraryPath w)
    then ([Evaluate (dlopenCall (chiselLibraryPath w)); Print (loadFailureMessage w)], Ok tt)
    else ([Print ("Chisel library missing: " ++ chiselLibraryPath w)], Ok tt).
Proof.
  unfold load_succeeds, findinstances_run, loadChiselIfNecessary.
  destruct (module_Chisel w); [discriminate|]. cbn [orb].
  destruct (os_path_exists w (chiselLibraryPath w)); cbn [andb negb]; cbv iota.
  - intros H. now rewrite H.
  - reflexivity.
Qed.

(** X14, where the library file is nowhere. *)
Lemma X14_witness :
  findinstances_run missing_world ["UIView"]
  = ([Print "Chisel library missing: /opt/chisel/libexec/commands/../../lib/Chisel.framework/Chisel"],
     Ok tt).
Proof.
  exact (X14_failed_load_forwards_nothing missing_world ["UIView"] eq_refl).
Defined.

(* ================================================================== *)
(** ** [findinstances]: the path of the library *)

Lemma ends_with_slash_append (x y : string) :
  y <> "" -> ends_with_slash (x ++ y) = ends_with_slash y.
Proof.
  intros Hy. induction x as [|c x IH]; [reflexivity|].
  simpl. rewrite IH. destruct (x ++ y) eqn:Hxy; [|reflexivity].
  destruct x; simpl in Hxy; [congruence | discriminate].
Qed.

Lemma eqb_append_nonempty (x y : string) :
  y <> "" -> String.eqb (x ++ y) "" = false.
Proof.
  intros Hy. apply String.eqb_neq. destruct x; simpl; [exact Hy | discriminate].
Qed.

(** Joining a component that is not absolute to a path that ends in a
    character other than a slash puts one slash between them. *)
Lemma join_step_component (x y b : string) :
  y <> "" -> ends_with_slash y = false -> head_is is_slash b = false ->
  join_step (x ++ y) b = x ++ y ++ "/" ++ b.
Proof.
  intros Hy Hend Hb. unfold join_step.
  rewrite Hb, (eqb_append_nonempty x y Hy), (ends_with_slash_append x y Hy), Hend.
  cbn [orb]. now rewrite append_assoc.
Qed.

Lemma default_join (d : string) :
  os_path_join d [".."; ".."; "lib"; "Chisel.framework"; "Chisel"]
  = directory_prefix d ++ "../../lib/Chisel.framework/Chisel".
Proof.
  unfold os_path_join. cbn [fold_left].
  assert (H1 : join_step d ".." = directory_prefix d ++ "..").
  { unfold join_step, directory_prefix. cbn [head_is].
    change (is_slash ".") with false. cbv iota.
    destruct (String.eqb d "" || ends_with_slash d)%bool; [reflexivity|].
    now rewrite append_assoc. }
  rewrite H1.
  rewrite (join_step_component (directory_prefix d) ".." "..");
    [| discriminate | reflexivity | reflexivity].
  change (".." ++ "/" ++ "..") with "../..".
  rewrite (join_step_component (directory_prefix d) "../.." "lib");
    [| discriminate | reflexivity | reflexivity].
  change ("../.." ++ "/" ++ "lib") with "../../lib".
  rewrite (join_step_component (directory_prefix d) "../../lib" "Chisel.framework");
    [| discriminate | reflexivity | reflexivity].
  change ("../../lib" ++ "/" ++ "Chisel.framework") with "../../lib/Chisel.framework".
  rewrite (join_step_component (directory_prefix d) "../../lib/Chisel.framework" "Chisel");
    [| discriminate | reflexivity | reflexivity].
  reflexivity.
Qed.

(** X15.  Whatever the environment, the path the library is looked for
    at is the value of [CHISEL_LIBRARY_PATH], and then that path exists,
    or the default; it is the default whenever the variable is unset or
    empty.  The default is the directory of the source file followed by
    [../../lib/Chisel.framework/Chisel], one separator standing between
    the two unless the directory is empty or ends in a separator. *)
Theorem X15_library_path_cases (w : World) :
  (chiselLibraryPath w = defaultLibraryPath w
   \/ (os_getenv w "CHISEL_LIBRARY_PATH" = Some (chiselLibraryPath w)
       /\ os_path_exists w (chiselLibraryPath w) = true))
  /\ (truthy (os_getenv w "CHISEL_LIBRARY_PATH") = false ->
      chiselLibraryPath w = defaultLibraryPath w)
  /\ defaultLibraryPath w
     = directory_prefix (os_path_dirname (module_file w))
       ++ "../../lib/Chisel.framework/Chisel".
Proof.
  split; [|split].
  - unfold chiselLibraryPath.
    destruct (os_getenv w "CHISEL_LIBRARY_PATH") as [p|] eqn:Henv; [|now left].
    destruct (truthy (Some p) && os_path_exists w (format_opt (Some p)))%bool eqn:Hc;
      [|now left].
    right. apply andb_prop in Hc as [_ Hex]. now split.
  - intros H. unfold chiselLibraryPath. now rewrite H.
  - unfold defaultLibraryPath. apply default_join.
Qed.

(** X15, with the variable set to the empty string. *)
Lemma X15_witness :
  chiselLibraryPath empty_override_world = defaultLibraryPath empty_override_world.
Proof.
  exact (proj1 (proj2 (X15_library_path_cases empty_override_world)) eq_refl).
Defined.

(* ================================================================== *)
(** ** [findinstances]: an error number that is text *)

(** X16.  The error number is compared with the integers 50 and 0 as it
    comes out of the debugger value.  When it comes as text, even the
    text [50] or [0], neither comparison holds: on a failed load the
    code-signing line and the unknown-failure line are out of reach, and
    the line printed is the loader's error if there is one, else what
    [strerror] of that text answers, else the bare text. *)
Theorem X16_text_errno (w : World) (arguments : list string) (text : string) :
  load_succeeds w = false ->
  os_path_exists w (chiselLibraryPath w) = true ->
  sb_value (evaluateExpressionValue w "*(int*)__error()") = PyStr text ->
  let dlerror := evaluateExpressionValue w "(char*)dlerror()" in
  let strerror := evaluateExpressionValue w ("(char*)strerror(" ++ text ++ ")") in
  findinstances_run w arguments
  = ([Evaluate (dlopenCall (chiselLibraryPath w));
      Print (if negb (sb_unsigned dlerror =? 0)
             then "Error loading Chisel: " ++ sb_summary dlerror
             else if negb (sb_unsigned strerror =? 0)
                  then "Error loading Chisel: " ++ sb_summary strerror
                  else "Error loading Chisel (errno " ++ text ++ ")")],
     Ok tt).
Proof.
  intros Hload Hex Herrno dlerror strerror.
  unfold load_succeeds in Hload. unfold findinstances_run, loadChiselIfNecessary.
  destruct (module_Chisel w); [discriminate|]. cbn [orb] in Hload.
  rewrite Hex in *. cbn [andb] in Hload. rewrite Hload. cbn [negb]. cbv iota.
  unfold loadFailureMessage. rewrite Herrno. reflexivity.
Qed.

(** X16, with the error number arriving as the text [50]. *)
Lemma X16_witness :
  findinstances_run text_errno_world ["UIView"]
  = ([Evaluate (dlopenCall (chiselLibraryPath text_errno_world));
      Print "Error loading Chisel: Unknown error: 50"],
     Ok tt).
Proof.
  exact (X16_text_errno text_errno_world ["UIView"] "50" eq_refl eq_refl eq_refl).
Defined.

(* ================================================================== *)
(** ** [bmessage]: a class as target *)

Lemma resolveTarget_class (w : World) (t cls : string) (n : Z) (plus : bool) :
  truthy (evaluateObjectExpression w ("(" ++ t ++ ")")) = false ->
  evaluateObjectExpression w
    ("[" ++ format_opt (evaluateObjectExpression w ("[" ++ t ++ " class]")) ++ " class]")
  = Some cls ->
  cls <> "" ->
  int0 w cls = Some n ->
  n <> 0 ->
  resolveTarget w t plus
  = ([], Ok (Some (true, evaluateObjectExpression w ("[" ++ t ++ " class]"),
                   if plus then object_getClass w cls else cls))).
Proof.
  intros Hobj Hcls Hcne Hint Hn.
  unfold resolveTarget. cbv zeta. rewrite Hobj. cbn [negb]. cbv iota.
  rewrite Hcls.
  assert (Ht : truthy (Some cls) = true) by (destruct cls; [congruence | reflexivity]).
  rewrite Ht. cbn [negb format_opt]. cbv iota.
  unfold py_int0. rewrite Hint. unfold bind at 1, ret. cbv beta iota.
  apply Z.eqb_neq in Hn. now rewrite Hn.
Qed.

(** X17.  When the target text does not evaluate to an object it is taken
    for a class name, and for a query without the marker [+] the ascent
    starts at that class itself and the guard of the breakpoint compares
    [object_getClass] of [self] with the class named in the query, not
    with the class that owns the method: the name of the breakpoint is
    the owner's, the guard is the queried class's. *)
Theorem X17_class_target_guard (fuel : nat) (w : World) (expression : string)
    (rest : list string) (g : groups) (self cls owner : string) (n : Z) :
  re_match methodPattern expression = Some g ->
  scope_is_plus (group g "scope") = false ->
  functionPreambleExpressionForSelf w = Some self ->
  self <> "" ->
  truthy (evaluateObjectExpression w ("(" ++ format_opt (group g "target") ++ ")")) = false ->
  evaluateObjectExpression w
    ("[" ++ format_opt (evaluateObjectExpression w
                          ("[" ++ format_opt (group g "target") ++ " class]"))
         ++ " class]") = Some cls ->
  cls <> "" ->
  int0 w cls = Some n ->
  n <> 0 ->
  ascend fuel w (format_opt (group g "selector")) false cls = Ok (true, owner) ->
  directives (trace (bmessage_run fuel w (expression :: rest)))
  = [HandleCommand
       (breakpointCommand (group g "category")
          (breakpointFullName "-" (class_getName w owner)
             (if truthy (group g "category") then format_opt (group g "category") else "")
             (format_opt (group g "selector")))
          (breakpointPattern "-" (class_getName w owner) (format_opt (group g "selector")))
          ("(void*)object_getClass(" ++ self ++ ") == " ++ cls))].
Proof.
  intros Hm Hscope Hself Hne Hobj Hcls Hcne Hint Hn Hasc.
  pose proof (resolveTarget_class w _ cls n false Hobj Hcls Hcne Hint Hn) as Hres.
  cbv iota in Hres.
  assert (Htself : truthy (functionPreambleExpressionForSelf w) = true).
  { rewrite Hself. destruct self; [congruence | reflexivity]. }
  assert (Hres' : resolveTarget w (format_opt (group g "target"))
                    (scope_is_plus (group g "scope"))
                  = ([], Ok (Some (true,
                       evaluateObjectExpression w
                         ("[" ++ format_opt (group g "target") ++ " class]"),
                       cls))))
    by (rewrite Hscope; exact Hres).
  rewrite (bmessage_run_resolved fuel w expression rest g true _ cls true owner
             Hm Htself Hres' Hasc).
  rewrite Hscope, Hself. reflexivity.
Qed.

(** X17, on [C], whose method is owned by [A]: the breakpoint is named
    after [A] and guarded by the handle of [C]. *)
Lemma X17_witness :
  directives (trace (bmessage_run 5 abc_world ["[C doThing:]"]))
  = [HandleCommand
       (funcRegexCommand (breakpointPattern "-" "A" "doThing:")
          "(void*)object_getClass((id)$rdi) == 0x3000")].
Proof.
  refine (X17_class_target_guard 5 abc_world "[C doThing:]" []
            [("selector", "doThing:"); ("target", "C")]
            "(id)$rdi" "0x3000" "0x1000" 12288
            eq_refl eq_refl eq_refl _ eq_refl eq_refl _ eq_refl _ eq_refl);
    discriminate.
Defined.
